(** * esp32-nvs2csv: a shallow embedding of the NVS partition decoder

    The development follows [src/esp32-nvs2csv.py]: the Python primitives the
    program relies on ([struct.unpack], slicing, [bytes.rstrip],
    [bytes.decode], [bytes.hex], [str(int)], a stable [list.sort]), the
    classes [NVSEntry] and [NVSPage], and the driver [extractNVSEntries].

    Python exceptions, the class-level dictionary [NVSEntry.namespaces], the
    [warnings.warn] channel and the CSV file are modelled by a state and
    error monad over a [world] record.  The [while] loop of
    [NVSPage.__init__] takes a fuel argument; running out of fuel is a third
    outcome next to a normal return and a raised exception. *)

From Stdlib Require Import ZArith Strings.Byte Ascii String DecimalString Sorted Permutation.
From stdpp Require Import gmap strings list fin_maps.

Local Open Scope string_scope.
Local Open Scope list_scope.
Local Open Scope Z_scope.

(** ** Python values *)

(** A Python [bytes] object. *)
Abbreviation bytes := (list byte).

(** A Python [str] is represented by its UTF-8 encoding, kept in a Rocq
    [string]; concatenation and equality of [str] objects coincide with
    those of their encodings. *)
Abbreviation pystr := string.

Definition byte_val (b : byte) : Z := Z.of_N (Byte.to_N b).

(** [data[a:b]] for [0 <= a <= b] and [data[a:]]. *)
Definition slice (a b : nat) (data : bytes) : bytes := take (b - a) (drop a data).
Definition slice_from (a : nat) (data : bytes) : bytes := drop a data.

(** Little-endian unsigned and two's complement signed integers, as read by
    the [B H I Q] and [b h i q] codes of [struct.unpack('<...')]. *)
Fixpoint uint_le (bs : bytes) : Z :=
  match bs with
  | [] => 0
  | b :: rest => byte_val b + 256 * uint_le rest
  end.

Definition sint_le (bs : bytes) : Z :=
  let v := uint_le bs in
  let w := 8 * Z.of_nat (length bs) in
  if v <? 2 ^ (w - 1) then v else v - 2 ^ w.

(** [bs.rstrip(b'\x00')]. *)
Definition is_x00 (b : byte) : bool := Z.eqb (byte_val b) 0.

Fixpoint rstrip0 (bs : bytes) : bytes :=
  match bs with
  | [] => []
  | b :: rest =>
      match rstrip0 rest with
      | [] => if is_x00 b then [] else [b]
      | rest' => b :: rest'
      end
  end.

(** Well-formed UTF-8, as accepted by the strict [bytes.decode('utf-8')]:
    shortest forms only, no surrogates, nothing above U+10FFFF. *)
Definition in_range (lo hi : Z) (b : byte) : bool :=
  (lo <=? byte_val b) && (byte_val b <=? hi).

Definition cont (b : byte) : bool := in_range 0x80 0xBF b.

Fixpoint utf8_valid (bs : bytes) : bool :=
  match bs with
  | [] => true
  | b0 :: r0 =>
      if byte_val b0 <? 0x80 then utf8_valid r0
      else if in_range 0xC2 0xDF b0 then
        match r0 with
        | b1 :: r1 => cont b1 && utf8_valid r1
        | _ => false
        end
      else if in_range 0xE0 0xEF b0 then
        match r0 with
        | b1 :: b2 :: r2 =>
            (if Z.eqb (byte_val b0) 0xE0 then in_range 0xA0 0xBF b1
             else if Z.eqb (byte_val b0) 0xED then in_range 0x80 0x9F b1
             else cont b1)
            && cont b2 && utf8_valid r2
        | _ => false
        end
      else if in_range 0xF0 0xF4 b0 then
        match r0 with
        | b1 :: b2 :: b3 :: r3 =>
            (if Z.eqb (byte_val b0) 0xF0 then in_range 0x90 0xBF b1
             else if Z.eqb (byte_val b0) 0xF4 then in_range 0x80 0x8F b1
             else cont b1)
            && cont b2 && cont b3 && utf8_valid r3
        | _ => false
        end
      else false
  end.

(** [bytes.hex()]: two lowercase digits per byte. *)
Definition hex_digit (n : Z) : ascii :=
  if n <? 10 then ascii_of_nat (Z.to_nat (48 + n))
  else ascii_of_nat (Z.to_nat (87 + n)).

Fixpoint hex (bs : bytes) : pystr :=
  match bs with
  | [] => EmptyString
  | b :: rest =>
      String (hex_digit (byte_val b / 16))
        (String (hex_digit (byte_val b mod 16)) (hex rest))
  end.

(** [str(n)] for a Python [int]. *)
Definition str_int (n : Z) : pystr := NilZero.string_of_int (Z.to_int n).

(** The values an entry's [value] attribute takes: [None], an [int] or a
    [str]. *)
Inductive pyvalue :=
  | VNone
  | VInt (n : Z)
  | VStr (s : pystr).

Global Instance pyvalue_eq_dec : EqDecision pyvalue.
Proof. solve_decision. Defined.

Global Instance pyvalue_countable : Countable pyvalue.
Proof.
  refine (inj_countable'
    (fun v => match v with
              | VNone => inl tt
              | VInt n => inr (inl n)
              | VStr s => inr (inr s)
              end)
    (fun x => match x with
              | inl _ => VNone
              | inr (inl n) => VInt n
              | inr (inr s) => VStr s
              end) _).
  intros []; reflexivity.
Defined.

(** [f'{v}'] *)
Definition str_value (v : pyvalue) : pystr :=
  match v with
  | VNone => "None"
  | VInt n => str_int n
  | VStr s => s
  end.

(** ** Exceptions, state and the monad *)

Inductive exn :=
  | struct_error        (* struct.unpack on a buffer of the wrong length *)
  | ValueError          (* an enum constructor applied to a non-member *)
  | UnicodeDecodeError  (* bytes.decode('utf-8') on ill-formed input *)
  | KeyError            (* dict[key] on a missing key *)
  | AttributeError      (* access to an attribute that does not exist *)
  | IndexError          (* list[i] out of range *)
  | UnicodeEncodeError. (* f.write of text the file's encoding cannot encode *)

Inductive outcome (A : Type) :=
  | Ok (a : A)
  | Raise (e : exn)
  | OutOfFuel.
Arguments Ok {A} a.
Arguments Raise {A} e.
Arguments OutOfFuel {A}.

(** The state and the environment outside the objects under construction:
    - [namespaces]: the class attribute [NVSEntry.namespaces];
    - [warnings]: the messages passed to [warnings.warn], oldest first;
    - [csv]: the strings written to the output file by [f.write], in order;
    - [locale]: the text the locale's encoding can encode besides ASCII (the
      output file is opened without [encoding=], so [f.write] encodes with
      the locale's encoding, which is ASCII-compatible). *)
Record world := MkWorld {
  namespaces : gmap pyvalue pystr;
  warnings : list pystr;
  csv : list pystr;
  locale : pystr -> bool
}.

Definition M (A : Type) : Type := world -> outcome A * world.

Definition ret {A} (a : A) : M A := fun w => (Ok a, w).
Definition raise {A} (e : exn) : M A := fun w => (Raise e, w).
Definition out_of_fuel {A} : M A := fun w => (OutOfFuel, w).

Definition bind {A B} (m : M A) (f : A -> M B) : M B :=
  fun w =>
    match m w with
    | (Ok a, w') => f a w'
    | (Raise e, w') => (Raise e, w')
    | (OutOfFuel, w') => (OutOfFuel, w')
    end.

Declare Scope py_scope.
Delimit Scope py_scope with py.
Notation "x <- m ;; k" := (bind m (fun x => k))
  (at level 90, m at next level, right associativity) : py_scope.
Notation "m ;;; k" := (bind m (fun _ => k))
  (at level 90, right associativity) : py_scope.
Local Open Scope py_scope.

(** [NVSEntry.namespaces.update({k : name})] *)
Definition ns_update (k : pyvalue) (name : pystr) : M unit :=
  fun w => (Ok tt, MkWorld (<[k := name]> (namespaces w)) (warnings w) (csv w)
                           (locale w)).

(** [NVSEntry.namespaces[k]] *)
Definition ns_lookup (k : pyvalue) : M pystr :=
  fun w =>
    match namespaces w !! k with
    | Some name => (Ok name, w)
    | None => (Raise KeyError, w)
    end.

(** [warnings.warn(msg)] *)
Definition warn (msg : pystr) : M unit :=
  fun w => (Ok tt, MkWorld (namespaces w) (warnings w ++ [msg]) (csv w) (locale w)).

(** [open(outfilename, mode="w")] truncates the file.  The errors of the
    file system ([OSError] of [open] or of a write) are left out of the
    model. *)
Definition file_open_w : M unit :=
  fun w => (Ok tt, MkWorld (namespaces w) (warnings w) [] (locale w)).

(** Text made of ASCII characters only. *)
Definition is_ascii (s : pystr) : bool :=
  forallb (fun b => byte_val b <? 0x80) (list_byte_of_string s).

(** The text the output file's encoding can encode. *)
Definition can_encode (w : world) (s : pystr) : bool := is_ascii s || locale w s.

(** [f.write(s)] encodes [s] and appends it; text the encoding cannot encode
    raises [UnicodeEncodeError] and nothing of it is written. *)
Definition file_write (s : pystr) : M unit :=
  fun w =>
    if can_encode w s
    then (Ok tt, MkWorld (namespaces w) (warnings w) (csv w ++ [s]) (locale w))
    else (Raise UnicodeEncodeError, w).

(** [struct.unpack(fmt, data)] raises [struct.error] unless [data] has
    exactly [calcsize(fmt)] bytes; [unpack n data] makes that check and hands
    the buffer back for the fields to be read from it. *)
Definition unpack (n : nat) (data : bytes) : M bytes :=
  if Nat.eqb (length data) n then ret data else raise struct_error.

(** [bs.decode('utf-8')] *)
Definition decode_utf8 (bs : bytes) : M pystr :=
  if utf8_valid bs then ret (string_of_list_byte bs) else raise UnicodeDecodeError.

(** ** Enumerations *)

Module NVSEntryState.
Inductive t := Erased | Written | Empty.

Definition to_int (s : t) : Z :=
  match s with Erased => 0 | Written => 2 | Empty => 3 end.

(** [NVSEntryState(n)] *)
Definition of_int (n : Z) : M t :=
  if n =? 0 then ret Erased
  else if n =? 2 then ret Written
  else if n =? 3 then ret Empty
  else raise ValueError.

Definition name (s : t) : pystr :=
  match s with Erased => "Erased" | Written => "Written" | Empty => "Empty" end.
End NVSEntryState.

Module NVSPageState.
Inductive t := Corrupted | Erasing | Full | Active | Empty.

Definition to_int (s : t) : Z :=
  match s with
  | Corrupted => 0
  | Erasing => 0xfffffff8
  | Full => 0xfffffffc
  | Active => 0xfffffffe
  | Empty => 0xffffffff
  end.
End NVSPageState.

Module NVSDataType.
Inductive t :=
  | uint8_t | uint16_t | uint32_t | uint64_t
  | int8_t | int16_t | int32_t | int64_t
  | string | blob_data | blob_index.

Global Instance eq_dec : EqDecision t.
Proof. solve_decision. Defined.

Definition to_int (d : t) : Z :=
  match d with
  | uint8_t => 0x01 | uint16_t => 0x02 | uint32_t => 0x04 | uint64_t => 0x08
  | int8_t => 0x11 | int16_t => 0x12 | int32_t => 0x14 | int64_t => 0x18
  | string => 0x21 | blob_data => 0x42 | blob_index => 0x48
  end.

(** [NVSDataType(n)]: a [ValueError] for a tag outside the enumeration. *)
Definition of_int (n : Z) : M t :=
  if n =? 0x01 then ret uint8_t
  else if n =? 0x02 then ret uint16_t
  else if n =? 0x04 then ret uint32_t
  else if n =? 0x08 then ret uint64_t
  else if n =? 0x11 then ret int8_t
  else if n =? 0x12 then ret int16_t
  else if n =? 0x14 then ret int32_t
  else if n =? 0x18 then ret int64_t
  else if n =? 0x21 then ret string
  else if n =? 0x42 then ret blob_data
  else if n =? 0x48 then ret blob_index
  else raise ValueError.

Definition name (d : t) : pystr :=
  match d with
  | uint8_t => "uint8_t" | uint16_t => "uint16_t"
  | uint32_t => "uint32_t" | uint64_t => "uint64_t"
  | int8_t => "int8_t" | int16_t => "int16_t"
  | int32_t => "int32_t" | int64_t => "int64_t"
  | string => "string" | blob_data => "blob_data" | blob_index => "blob_index"
  end.
End NVSDataType.

(** ** class NVSEntry *)

Module NVSEntry.
(** The attributes of an entry.  [state] holds the raw two-bit value taken
    from the page's bitmap (an [int], not an [NVSEntryState] member). *)
Record t := Make {
  ns : Z;
  datatype : NVSDataType.t;
  span : Z;
  chunkIndex : Z;
  crc : Z;
  dataCrc : Z;
  size : Z;
  key : pystr;
  value : pyvalue;
  state : Z
}.

Definition set_value (e : t) (v : pyvalue) : t :=
  Make (ns e) (datatype e) (span e) (chunkIndex e) (crc e) (dataCrc e)
       (size e) (key e) v (state e).

(** The [match self.datatype] of [__init__]: the size, the value and the
    data CRC read from the last 8 bytes of the slot.  [self.datatype] is a
    member of [NVSDataType] by then (the conversion has raised otherwise),
    so the eleven cases are exhaustive and the [case _] branch of the
    source is never entered. *)
Definition read_data (d : NVSDataType.t) (data : bytes) : M (Z * pyvalue * Z) :=
  match d with
  | NVSDataType.uint8_t =>
      v <- unpack 1 (slice 0 1 data) ;; ret (1, VInt (uint_le v), 0)
  | NVSDataType.uint16_t =>
      v <- unpack 2 (slice 0 2 data) ;; ret (2, VInt (uint_le v), 0)
  | NVSDataType.uint32_t =>
      v <- unpack 4 (slice 0 4 data) ;; ret (4, VInt (uint_le v), 0)
  | NVSDataType.uint64_t =>
      v <- unpack 8 (slice 0 8 data) ;; ret (8, VInt (uint_le v), 0)
  | NVSDataType.int8_t =>
      v <- unpack 1 (slice 0 1 data) ;; ret (1, VInt (sint_le v), 0)
  | NVSDataType.int16_t =>
      v <- unpack 2 (slice 0 2 data) ;; ret (2, VInt (sint_le v), 0)
  | NVSDataType.int32_t =>
      v <- unpack 4 (slice 0 4 data) ;; ret (4, VInt (sint_le v), 0)
  | NVSDataType.int64_t =>
      v <- unpack 8 (slice 0 8 data) ;; ret (8, VInt (sint_le v), 0)
  | NVSDataType.string | NVSDataType.blob_data =>
      (* '<HHI': size, reserved, dataCrc; the value is read later *)
      v <- unpack 8 (slice 0 8 data) ;;
      ret (uint_le (slice 0 2 v), VNone, uint_le (slice 4 8 v))
  | NVSDataType.blob_index =>
      (* '<IH': size, chunkCount *)
      v <- unpack 6 (slice 0 6 data) ;;
      ret (uint_le (slice 0 4 v), VInt (uint_le (slice 4 6 v)), 0)
  end.

(** [NVSEntry.__init__(self, entryData, state)] *)
Definition init (entryData : bytes) (state : Z) : M t :=
  (* '<BBBBI16s' over entryData[0:24] *)
  hdr <- unpack 24 (slice 0 24 entryData) ;;
  let ns := uint_le (slice 0 1 hdr) in
  let tag := uint_le (slice 1 2 hdr) in
  let span := uint_le (slice 2 3 hdr) in
  let chunkIndex := uint_le (slice 3 4 hdr) in
  let crc := uint_le (slice 4 8 hdr) in
  let rawkey := slice 8 24 hdr in
  let data := slice 24 32 entryData in
  datatype <- NVSDataType.of_int tag ;;
  key <- decode_utf8 (rstrip0 rawkey) ;;
  if negb (state =? NVSEntryState.to_int NVSEntryState.Empty) then
    r <- read_data datatype data ;;
    let '(size, value, dataCrc) := r in
    (if ns =? 0 then ns_update value key else ret tt) ;;;
    ret (Make ns datatype span chunkIndex crc dataCrc size key value state)
  else
    ret (Make ns datatype span chunkIndex crc 0 0 key VNone state).

(** [NVSEntry.__str__(self)] *)
Definition str (e : t) : M pystr :=
  st <- NVSEntryState.of_int (state e) ;;
  nsname <- ns_lookup (VInt (ns e)) ;;
  ret (NVSEntryState.name st +:+ "," +:+ NVSDataType.name (datatype e) +:+ ","
       +:+ str_int (size e) +:+ "," +:+ nsname +:+ "," +:+ key e +:+ ","
       +:+ str_value (value e)).

(** The f-strings of the two [else] branches below read [self.dataType],
    an attribute no [NVSEntry] has (the attribute is [datatype]): the
    argument of [warnings.warn] raises before the call is made. *)
Definition getattr_dataType_key : M pystr := raise AttributeError.

(** [NVSEntry.readStrValue(self, data)] *)
Definition readStrValue (e : t) (data : bytes) : M t :=
  if decide (datatype e = NVSDataType.string) then
    raw <- unpack (Z.to_nat (size e)) (slice 0 (Z.to_nat (size e)) data) ;;
    s <- decode_utf8 (rstrip0 raw) ;;
    ret (set_value e (VStr s))
  else
    msg <- getattr_dataType_key ;;
    warn msg ;;;
    ret (set_value e VNone).

(** [NVSEntry.readBlobValue(self, data)] *)
Definition readBlobValue (e : t) (data : bytes) : M t :=
  if decide (datatype e = NVSDataType.blob_data) then
    ret (set_value e (VStr ("b'" +:+ hex (slice 0 (Z.to_nat (size e)) data) +:+ "'")))
  else
    msg <- getattr_dataType_key ;;
    warn msg ;;;
    ret (set_value e VNone).
End NVSEntry.

(** ** class NVSPage *)

Module NVSPage.
Definition PAGE_SIZE : nat := 4096.
Definition ENTRY_SIZE : nat := 32.
Definition NUM_ENTRIES : nat := 126.

Record t := Make {
  state : Z;
  seqNum : Z;
  version : Z;
  crc : Z;
  entries : list NVSEntry.t
}.

(** [self.state == NVSPageState.Active or self.state == NVSPageState.Full] *)
Definition is_active_or_full (st : Z) : bool :=
  (st =? NVSPageState.to_int NVSPageState.Active)
  || (st =? NVSPageState.to_int NVSPageState.Full).

(** The four two-bit states packed in a bitmap byte, low pair first. *)
Definition states_of_byte (b : byte) : list Z :=
  [ Z.land (byte_val b) 3;
    Z.land (Z.shiftr (byte_val b) 2) 3;
    Z.land (Z.shiftr (byte_val b) 4) 3;
    Z.land (Z.shiftr (byte_val b) 6) 3 ].

(** The [for i in range(NVSPage.ENTRY_SIZE)] loop over the 32 unpacked
    bitmap bytes. *)
Definition unpack_states (bitmap : bytes) : list Z :=
  flat_map states_of_byte bitmap.

(** The value read after the entry at [addr] was built: a string or a blob
    takes it from the bytes that follow the slot in the page. *)
Definition read_value (pageData : bytes) (addr : nat) (entry : NVSEntry.t)
  : M NVSEntry.t :=
  if decide (NVSEntry.datatype entry = NVSDataType.string) then
    NVSEntry.readStrValue entry (slice_from (addr + ENTRY_SIZE) pageData)
  else if decide (NVSEntry.datatype entry = NVSDataType.blob_data) then
    NVSEntry.readBlobValue entry (slice_from (addr + ENTRY_SIZE) pageData)
  else ret entry.

(** The entry built for the non-empty slot [entryNum] (lines 276 to 289):
    the slot is parsed, then the value of a string or a blob is read. *)
Definition read_entry (pageData : bytes) (entryNum : nat) (st : Z)
  : M NVSEntry.t :=
  let addr := ((entryNum + 2) * ENTRY_SIZE)%nat in
  entry <- NVSEntry.init (slice addr (addr + ENTRY_SIZE) pageData) st ;;
  read_value pageData addr entry.

(** The [while entryNum < NVSPage.NUM_ENTRIES] loop; one unit of fuel per
    evaluation of the loop test. *)
Fixpoint walk (fuel : nat) (pageData : bytes) (entryState : list Z)
    (entryNum : nat) (entries : list NVSEntry.t) : M (list NVSEntry.t) :=
  match fuel with
  | O => out_of_fuel
  | S fuel' =>
      if Nat.ltb entryNum NUM_ENTRIES then
        match entryState !! entryNum with
        | None => raise IndexError
        | Some st =>
            if negb (st =? NVSEntryState.to_int NVSEntryState.Empty) then
              entry <- read_entry pageData entryNum st ;;
              walk fuel' pageData entryState
                   (entryNum + Z.to_nat (NVSEntry.span entry))%nat
                   (entries ++ [entry])
            else
              walk fuel' pageData entryState (entryNum + 1)%nat entries
        end
      else ret entries
  end.

(** [NVSPage.__init__(self, pageData)] *)
Definition init (fuel : nat) (pageData : bytes) : M t :=
  (* '<IIB19sI' over pageData[0:32] *)
  hdr <- unpack 32 (slice 0 32 pageData) ;;
  let state := uint_le (slice 0 4 hdr) in
  let seqNum := uint_le (slice 4 8 hdr) in
  let version := uint_le (slice 8 9 hdr) in
  let crc := uint_le (slice 28 32 hdr) in
  if is_active_or_full state then
    bitmap <- unpack 32 (slice 32 64 pageData) ;;
    entries <- walk fuel pageData (unpack_states bitmap) 0 [] ;;
    ret (Make state seqNum version crc entries)
  else
    ret (Make state seqNum version crc []).
End NVSPage.

(** ** extractNVSEntries *)

(** [range(0, stop, step)] *)
Definition range_step (stop step : nat) : list nat :=
  map (fun k => (k * step)%nat) (seq 0 (Nat.div (stop + step - 1) step)).

(** [pages.sort(key=attrgetter('seqNum'))]: [list.sort] is stable and
    ascending; it is modelled by the stable insertion sort. *)
Fixpoint insert_page (p : NVSPage.t) (l : list NVSPage.t) : list NVSPage.t :=
  match l with
  | [] => [p]
  | q :: l' =>
      if NVSPage.seqNum p <=? NVSPage.seqNum q then p :: q :: l'
      else q :: insert_page p l'
  end.

Definition sort_pages (pages : list NVSPage.t) : list NVSPage.t :=
  foldr insert_page [] pages.

(** The [for pageAddr in range(0, len(imageData), NVSPage.PAGE_SIZE)] loop. *)
Fixpoint read_pages (fuel : nat) (imageData : bytes) (addrs : list nat)
    (pages : list NVSPage.t) : M (list NVSPage.t) :=
  match addrs with
  | [] => ret pages
  | pageAddr :: rest =>
      page <- NVSPage.init fuel
                (slice pageAddr (pageAddr + NVSPage.PAGE_SIZE) imageData) ;;
      read_pages fuel imageData rest
        (if NVSPage.is_active_or_full (NVSPage.state page)
         then pages ++ [page] else pages)
  end.

Definition newline : pystr := String (ascii_of_nat 10) EmptyString.

Definition csv_header : pystr :=
  "status,type,size,namespace,name,value" +:+ newline.

(** The output condition on an entry. *)
Definition selected (printWritten printErased : bool) (e : NVSEntry.t) : bool :=
  (printWritten && (NVSEntry.state e =? NVSEntryState.to_int NVSEntryState.Written))
  || (printErased && (NVSEntry.state e =? NVSEntryState.to_int NVSEntryState.Erased)).

(** The [for entry in page.entries] loop. *)
Fixpoint write_entries (printWritten printErased : bool)
    (es : list NVSEntry.t) : M unit :=
  match es with
  | [] => ret tt
  | entry :: rest =>
      (if selected printWritten printErased entry then
         s <- NVSEntry.str entry ;; file_write (s +:+ newline)
       else ret tt) ;;;
      write_entries printWritten printErased rest
  end.

(** The [for page in pages] loop. *)
Fixpoint write_pages (printWritten printErased : bool)
    (pages : list NVSPage.t) : M unit :=
  match pages with
  | [] => ret tt
  | page :: rest =>
      write_entries printWritten printErased (NVSPage.entries page) ;;;
      write_pages printWritten printErased rest
  end.

(** The decoding half of [extractNVSEntries]: the pages kept, sorted. *)
Definition scan (fuel : nat) (imageData : bytes) : M (list NVSPage.t) :=
  pages <- read_pages fuel imageData
             (range_step (length imageData) NVSPage.PAGE_SIZE) [] ;;
  ret (sort_pages pages).

(** [extractNVSEntries(filename, printWritten, printErased)], with the
    contents of the input file as [imageData] and the output file as the
    [csv] component of the world. *)
Definition extractNVSEntries (fuel : nat) (imageData : bytes)
    (printWritten printErased : bool) : M unit :=
  pages <- scan fuel imageData ;;
  file_open_w ;;;
  file_write csv_header ;;;
  write_pages printWritten printErased pages.

(** The state of a fresh interpreter under a UTF-8 locale: the class
    attribute as initialised at line 67, no warning issued, nothing written,
    every text encodable. *)
Definition world0 : world :=
  MkWorld {[ VInt 0 := "Namespace" ]} [] [] (fun _ => true).

(** ** Test data *)

Definition B (n : Z) : byte :=
  match Byte.of_N (Z.to_N n) with Some b => b | None => x00 end.

Definition ascii_bytes (s : pystr) : bytes := list_byte_of_string s.

(** [n] as [k] little-endian bytes. *)
Fixpoint le_bytes (k : nat) (n : Z) : bytes :=
  match k with
  | O => []
  | S k' => B (n mod 256) :: le_bytes k' (n / 256)
  end.

Definition pad (n : nat) (fill : Z) (bs : bytes) : bytes :=
  take n (bs ++ replicate n (B fill)).

(** A 32-byte slot: namespace, type tag, span, chunk index, CRC, key, data. *)
Definition mk_slot (ns tag span chunk crc : Z) (key : pystr) (data : bytes) : bytes :=
  [B ns; B tag; B span; B chunk] ++ le_bytes 4 crc
  ++ pad 16 0 (ascii_bytes key) ++ pad 8 0xff data.

(** A page: header, bitmap bytes (padded with 0xff, all slots Empty) and the
    slots, padded to 4096 bytes with 0xff. *)
Definition mk_page (state seq crc : Z) (bitmap : list Z) (slots : list bytes) : bytes :=
  pad 4096 0xff
    (le_bytes 4 state ++ le_bytes 4 seq ++ [B 0xfe] ++ replicate 19 (B 0xff)
     ++ le_bytes 4 crc ++ pad 32 0xff (map B bitmap) ++ concat slots).

(** * Vocabulary of the statements and test data *)

(** The world after the calls [namespaces.update({k : name})] for the pairs of
    [ups], in order. *)
Definition apply_updates (ups : list (pyvalue * pystr)) (w : world) : world :=
  MkWorld (foldl (fun m kv => <[kv.1 := kv.2]> m) (namespaces w) ups)
          (warnings w) (csv w) (locale w).

(** [m] returns the same outcome from every world, and its only effect is a
    fixed sequence of updates of the namespace table. *)
Definition write_only {A} (m : M A) : Prop :=
  exists (r : outcome A) (ups : list (pyvalue * pystr)),
    forall w, m w = (r, apply_updates ups w).

(** The outcome of [m] and the strings it writes depend on the namespace
    table and the locale alone, and its only effect is to append those
    strings to the file. *)
Definition appends_only {A} (m : M A) : Prop :=
  exists g : gmap pyvalue pystr -> (pystr -> bool) -> outcome A * list pystr,
    forall w, m w = ((g (namespaces w) (locale w)).1,
                     MkWorld (namespaces w) (warnings w)
                             (csv w ++ (g (namespaces w) (locale w)).2)
                             (locale w)).

(** What [write_pages] returns and writes under the table [N] and the
    locale [L]. *)
Definition written (N : gmap pyvalue pystr) (L : pystr -> bool) (pw pe : bool)
    (pages : list NVSPage.t) : outcome unit * list pystr :=
  let r := write_pages pw pe pages (MkWorld N [] [] L) in (r.1, csv r.2).

(** The order of the sort key. *)
Definition seq_le (p q : NVSPage.t) : Prop := NVSPage.seqNum p <= NVSPage.seqNum q.

(** [e] is the entry the walk builds at slot [slot]. *)
Definition decoded_at (pageData : bytes) (states : list Z) (slot : nat)
    (e : NVSEntry.t) : Prop :=
  exists st w1 w2,
    states !! slot = Some st /\
    st <> NVSEntryState.to_int NVSEntryState.Empty /\
    NVSPage.read_entry pageData slot st w1 = (Ok e, w2).

(** The entries of a decoded page, in terms of the slots they come from. *)
Definition slot_ordered (pageData : bytes) (es : list NVSEntry.t) : Prop :=
  exists tr : list (nat * NVSEntry.t),
    es = map snd tr /\
    StronglySorted lt (map fst tr) /\
    Forall (fun se => (se.1 < NVSPage.NUM_ENTRIES)%nat /\
                      decoded_at pageData
                        (NVSPage.unpack_states (slice 32 64 pageData)) se.1 se.2) tr.

(** [p] is the page the page decoder builds from the window [pageData],
    whatever the state it starts in; its entries are in slot order. *)
Definition decodes_to (fuel : nat) (pageData : bytes) (p : NVSPage.t) : Prop :=
  (forall w, (NVSPage.init fuel pageData w).1 = Ok p) /\
  slot_ordered pageData (NVSPage.entries p).

(** The pages the scanner keeps, in the order of the image. *)
Definition kept_pages (all : list NVSPage.t) : list NVSPage.t :=
  List.filter (fun p => NVSPage.is_active_or_full (NVSPage.state p)) all.

(** [str(entry)] under the namespace table [N]. *)
Definition render (N : gmap pyvalue pystr) (e : NVSEntry.t) : outcome pystr :=
  (NVSEntry.str e (MkWorld N [] [] (fun _ => true))).1.


(** Two pages: sequence number 5 at offset 0 (it defines namespace 1 as
    "wifi" and holds a string), sequence number 2 at offset 4096. *)
Definition page_seq5 : bytes :=
  mk_page 0xfffffffe 5 0 [0xea]
    [ mk_slot 0 0x01 1 0xff 0 "wifi" [B 1];
      mk_slot 1 0x21 2 0xff 0 "ssid" (le_bytes 2 5 ++ le_bytes 2 0xffff ++ le_bytes 4 0);
      pad 32 0xff (ascii_bytes "home" ++ [B 0]) ].

(** The page of sequence number 2: two entries in namespace 1. *)
Definition page_seq2 : bytes :=
  mk_page 0xfffffffc 2 0 [0xfa]
    [ mk_slot 1 0x01 1 0xff 0 "chan" [B 6];
      mk_slot 1 0x14 1 0xff 0 "rssi" (le_bytes 4 (2 ^ 32 - 70)) ].

Definition two_pages : bytes := page_seq5 ++ page_seq2.



(** The windows [imageData[pageAddr : pageAddr + PAGE_SIZE]] the scanner
    visits, in order. *)
Definition page_slices (imageData : bytes) : list bytes :=
  map (fun a => slice a (a + NVSPage.PAGE_SIZE) imageData)
      (range_step (length imageData) NVSPage.PAGE_SIZE).

(** [read_pages] over the windows themselves. *)
Fixpoint read_slices (fuel : nat) (slices : list bytes) (pages : list NVSPage.t)
    : M (list NVSPage.t) :=
  match slices with
  | [] => ret pages
  | pageData :: rest =>
      page <- NVSPage.init fuel pageData ;;
      read_slices fuel rest
        (if NVSPage.is_active_or_full (NVSPage.state page)
         then pages ++ [page] else pages)
  end.

(** The header state of a page, as [NVSPage.init] reads it. *)
Definition header_state (pageData : bytes) : Z :=
  uint_le (slice 0 4 (slice 0 32 pageData)).

(** A page in the Empty state whose bitmap marks slot 0 as Written and whose
    slot 0 holds a well-formed entry. *)
Definition empty_state_page : bytes :=
  mk_page 0xffffffff 9 0 [0xfe] [ mk_slot 1 0x01 1 0xff 0 "ghost" [B 7] ].

(** [returns m]: [m] never runs out of fuel (it has no loop of its own). *)
Definition returns {A} (m : M A) : Prop := forall w, (m w).1 <> OutOfFuel.

(** The span byte of slot [n], as [NVSEntry.init] reads it. *)
Definition span_byte (pageData : bytes) (n : nat) : Z :=
  let addr := ((n + 2) * NVSPage.ENTRY_SIZE)%nat in
  uint_le (slice 2 3 (slice 0 24 (slice addr (addr + NVSPage.ENTRY_SIZE) pageData))).

(** The cursor positions of the walk, followed through the stored span
    bytes for at most [k] steps: [progresses] holds when every non-empty
    slot the cursor stops on has a span byte of at least 1. *)
Fixpoint progresses (k : nat) (pageData : bytes) (states : list Z) (n : nat) : bool :=
  match k with
  | O => true
  | S k' =>
      if Nat.ltb n NVSPage.NUM_ENTRIES then
        match states !! n with
        | None => true
        | Some st =>
            if st =? NVSEntryState.to_int NVSEntryState.Empty then
              progresses k' pageData states (n + 1)
            else
              (1 <=? span_byte pageData n)
              && progresses k' pageData states (n + Z.to_nat (span_byte pageData n))
        end
      else true
  end.

(** An Active page whose slot 0 is Written and holds a [uint8_t] entry with a
    span byte of 0. *)
Definition span0_page : bytes :=
  mk_page 0xfffffffe 1 0 [0xfe] [ mk_slot 1 0x01 0 0xff 0 "loop" [B 1] ].

Definition all_datatypes : list NVSDataType.t :=
  [ NVSDataType.uint8_t; NVSDataType.uint16_t; NVSDataType.uint32_t;
    NVSDataType.uint64_t; NVSDataType.int8_t; NVSDataType.int16_t;
    NVSDataType.int32_t; NVSDataType.int64_t; NVSDataType.string;
    NVSDataType.blob_data; NVSDataType.blob_index ].

(** [tag] is the value of one of the eleven members of [NVSDataType]. *)
Definition recognized (tag : Z) : bool :=
  existsb (fun d => NVSDataType.to_int d =? tag) all_datatypes.

(** The type tag of a slot, as [NVSEntry.init] reads it. *)
Definition tag_byte (entryData : bytes) : Z :=
  uint_le (slice 1 2 (slice 0 24 entryData)).

(** A slot with the tag byte 0x00, which no member of [NVSDataType] has. *)
Definition unknown_tag_slot : bytes := mk_slot 1 0x00 1 0xff 0 "odd" [B 1].

(** That slot, marked Written, followed by a well-formed Written entry. *)
Definition unknown_tag_page : bytes :=
  mk_page 0xfffffffe 1 0 [0xfa]
    [ unknown_tag_slot; mk_slot 1 0x01 1 0xff 0 "next" [B 9] ].

(** A Written entry in namespace 5, which nothing defines. *)
Definition orphan_page : bytes :=
  mk_page 0xfffffffe 1 0 [0xfe] [ mk_slot 5 0x01 1 0xff 0 "lost" [B 1] ].

(** The entry that page decodes to. *)
Definition orphan_entry : NVSEntry.t :=
  NVSEntry.Make 5 NVSDataType.uint8_t 1 0xff 0 0 1 "lost" (VInt 1) 2.

(** A string entry of size 2 whose payload is the two bytes ff fe. *)
Definition bad_utf8_entry : NVSEntry.t :=
  NVSEntry.Make 0 NVSDataType.string 2 0xff 0 0 2 "name" VNone 2.

(** A page holding that entry and its payload. *)
Definition bad_utf8_page : bytes :=
  mk_page 0xfffffffe 1 0 [0xfa]
    [ mk_slot 0 0x21 2 0xff 0 "name" (le_bytes 2 2 ++ le_bytes 2 0xffff ++ le_bytes 4 0);
      pad 32 0xff [B 0xff; B 0xfe] ].

(** A string entry of size 5, before its value is read. *)
Definition ascii_entry : NVSEntry.t :=
  NVSEntry.Make 1 NVSDataType.string 2 0xff 0 0 5 "ssid" VNone 2.

(** Slot 0 has bitmap state 1 and holds an entry with span 2; slot 1 is
    Written and holds a well-formed entry. *)
Definition state1_page : bytes :=
  mk_page 0xfffffffe 1 0 [0xf9]
    [ mk_slot 1 0x01 2 0xff 0 "bad" [B 1];
      mk_slot 0 0x01 1 0xff 0 "good" [B 9] ].

(** The entry decoded from slot 0 of that page. *)
Definition state1_entry : NVSEntry.t :=
  NVSEntry.Make 1 NVSDataType.uint8_t 2 0xff 0 0 1 "bad" (VInt 1) 1.

(** Slot 0 holds a blob-data entry with a stored size of 65535 bytes (2049
    slots, on a page of 126) and a span byte of 1; slot 1 holds a well-formed
    entry. *)
Definition overflow_page : bytes :=
  mk_page 0xfffffffe 1 0 [0xfa]
    [ mk_slot 0 0x42 1 0 0 "blob" (le_bytes 2 0xffff ++ le_bytes 2 0xffff ++ le_bytes 4 0);
      mk_slot 0 0x01 1 0xff 0 "next" [B 9] ].

(** A blob-data entry of 4 bytes in slot 0, its payload in slot 1. *)
Definition blob_page : bytes :=
  mk_page 0xfffffffe 1 0 [0xfa]
    [ mk_slot 0 0x42 2 0 0 "blob" (le_bytes 2 4 ++ le_bytes 2 0xffff ++ le_bytes 4 0);
      pad 32 0xff [B 0xde; B 0xad; B 0xbe; B 0xef] ].

(** The entry decoded from slot 0 of that page. *)
Definition blob_entry : NVSEntry.t :=
  NVSEntry.Make 0 NVSDataType.blob_data 2 0 0 0 4 "blob" (VStr "b'deadbeef'") 2.

(** Modelled from the spec: the Checksum Verifier of section 4.1,
    [crc32(bytes) -> u32] with the standard reflected CRC32 polynomial.  The
    program has no checksum function and never calls one; this definition
    only serves to say what a mismatching stored CRC is. *)
Definition crc32_bit (c : Z) : Z :=
  if Z.testbit c 0 then Z.lxor (Z.shiftr c 1) 0xEDB88320 else Z.shiftr c 1.

(** Modelled from the spec: one byte of the same checksum. *)
Definition crc32_byte (c : Z) (b : byte) : Z :=
  Nat.iter 8 crc32_bit (Z.lxor c (byte_val b)).

(** Modelled from the spec: [crc32(bytes)], initial value and final
    complement 0xffffffff. *)
Definition crc32 (bs : bytes) : Z :=
  Z.lxor (fold_left crc32_byte bs 0xffffffff) 0xffffffff.

(** [e] and [p] with another value in their [crc] attribute. *)
Definition set_crc (e : NVSEntry.t) (c : Z) : NVSEntry.t :=
  NVSEntry.Make (NVSEntry.ns e) (NVSEntry.datatype e) (NVSEntry.span e)
    (NVSEntry.chunkIndex e) c (NVSEntry.dataCrc e) (NVSEntry.size e)
    (NVSEntry.key e) (NVSEntry.value e) (NVSEntry.state e).

Definition set_page_crc (p : NVSPage.t) (c : Z) : NVSPage.t :=
  NVSPage.Make (NVSPage.state p) (NVSPage.seqNum p) (NVSPage.version p) c
    (NVSPage.entries p).

(** [f] applied to the value returned, if any. *)
Definition on_ok {A} (f : A -> A) (r : outcome A * world) : outcome A * world :=
  (match r.1 with
   | Ok a => Ok (f a)
   | Raise e => Raise e
   | OutOfFuel => OutOfFuel
   end, r.2).

(** A page with one Written entry; the header and the entry store 0 in
    their CRC fields. *)
Definition zero_crc_page : bytes :=
  mk_page 0xfffffffe 1 0 [0xfe] [ mk_slot 0 0x01 1 0xff 0 "wifi" [B 1] ].

(** The exceptions of [S] are the only ones [m] raises. *)
Definition raises_only {A} (S : exn -> Prop) (m : M A) : Prop :=
  forall w x w', m w = (Raise x, w') -> S x.

(** The exceptions of malformed input: a buffer too short for its format, a
    type tag outside the enumeration, ill-formed UTF-8. *)
Definition decode_exn (x : exn) : Prop :=
  x = struct_error \/ x = ValueError \/ x = UnicodeDecodeError.

(** A fresh interpreter under a locale whose encoding is ASCII. *)
Definition world_ascii : world :=
  MkWorld {[ VInt 0 := "Namespace" ]} [] [] (fun _ => false).

(** A page with one Written string entry whose value is e-acute (c3 a9 in
    UTF-8). *)
Definition accent_page : bytes :=
  mk_page 0xfffffffe 1 0 [0xfa]
    [ mk_slot 0 0x21 2 0xff 0 "name" (le_bytes 2 2 ++ le_bytes 2 0xffff ++ le_bytes 4 0);
      pad 32 0xff [B 0xc3; B 0xa9] ].

(** [e] with another value in its [state] attribute. *)
Definition set_state (e : NVSEntry.t) (st : Z) : NVSEntry.t :=
  NVSEntry.Make (NVSEntry.ns e) (NVSEntry.datatype e) (NVSEntry.span e)
    (NVSEntry.chunkIndex e) (NVSEntry.crc e) (NVSEntry.dataCrc e) (NVSEntry.size e)
    (NVSEntry.key e) (NVSEntry.value e) st.

(** A Written [int32_t] entry of namespace 1 and the slot it is decoded
    from. *)
Definition rssi_slot : bytes :=
  mk_slot 1 0x14 1 0xff 0 "rssi" (le_bytes 4 (2 ^ 32 - 70)).

Definition rssi_entry : NVSEntry.t :=
  NVSEntry.Make 1 NVSDataType.int32_t 1 0xff 0 0 4 "rssi" (VInt (-70)) 2.

(** The entry that defines namespace 1 as "wifi" and the slot it is decoded
    from. *)
Definition wifi_slot : bytes := mk_slot 0 0x01 1 0xff 0 "wifi" [B 1].

Definition wifi_entry : NVSEntry.t :=
  NVSEntry.Make 0 NVSDataType.uint8_t 1 0xff 0 0 1 "wifi" (VInt 1) 2.

(** The key under which the decoding of [e] registers a namespace: the
    value the entry holds when [__init__] updates the table, which for a
    string or a blob is still [None] (the text is read afterwards). *)
Definition registered_key (e : NVSEntry.t) : pyvalue :=
  match NVSEntry.datatype e with
  | NVSDataType.string | NVSDataType.blob_data => VNone
  | _ => NVSEntry.value e
  end.

(** The namespace table after the decoding of the non-empty entry [e]. *)
Definition register (N : gmap pyvalue pystr) (e : NVSEntry.t)
  : gmap pyvalue pystr :=
  if NVSEntry.ns e =? 0 then <[registered_key e := NVSEntry.key e]> N else N.

(** A page that defines namespace 1 twice: as "wifi" in slot 0 and as
    "other" in slot 2, with an entry of namespace 1 in between. *)
Definition other_slot : bytes := mk_slot 0 0x01 1 0xff 0 "other" [B 1].

Definition other_entry : NVSEntry.t :=
  NVSEntry.Make 0 NVSDataType.uint8_t 1 0xff 0 0 1 "other" (VInt 1) 2.

Definition rebind_page : bytes :=
  mk_page 0xfffffffe 1 0 [0xea] [ wifi_slot; rssi_slot; other_slot ].

Definition decoded_rebind : NVSPage.t :=
  match (NVSPage.init 127 rebind_page world0).1 with
  | Ok p => p
  | _ => NVSPage.Make 0 0 0 0 []
  end.

(** * Properties *)

(** ** The decoding half only writes to the namespace table

    A computation is [write_only] when its outcome does not depend on the
    world it starts from and its only effect is a fixed sequence of
    [namespaces.update] calls. *)

Lemma apply_updates_nil w : apply_updates [] w = w.
Proof. destruct w; reflexivity. Qed.

Lemma apply_updates_app u1 u2 w :
  apply_updates (u1 ++ u2) w = apply_updates u2 (apply_updates u1 w).
Proof. unfold apply_updates; simpl. rewrite foldl_app. reflexivity. Qed.

Lemma write_only_ret {A} (a : A) : write_only (ret a).
Proof. exists (Ok a), []. intros w. rewrite apply_updates_nil. reflexivity. Qed.

Lemma write_only_raise {A} (e : exn) : write_only (@raise A e).
Proof. exists (Raise e), []. intros w. rewrite apply_updates_nil. reflexivity. Qed.

Lemma write_only_out_of_fuel {A} : write_only (@out_of_fuel A).
Proof. exists OutOfFuel, []. intros w. rewrite apply_updates_nil. reflexivity. Qed.

Lemma write_only_ns_update k name : write_only (ns_update k name).
Proof. exists (Ok tt), [(k, name)]. intros w. reflexivity. Qed.

Lemma write_only_bind {A B} (m : M A) (f : A -> M B) :
  write_only m -> (forall a, write_only (f a)) -> write_only (bind m f).
Proof.
  intros (r & u1 & Hm) Hf. destruct r as [a | e |].
  - destruct (Hf a) as (r2 & u2 & Hfa). exists r2, (u1 ++ u2). intros w.
    unfold bind. rewrite Hm, Hfa, apply_updates_app. reflexivity.
  - exists (Raise e), u1. intros w. unfold bind. rewrite Hm. reflexivity.
  - exists OutOfFuel, u1. intros w. unfold bind. rewrite Hm. reflexivity.
Qed.

Lemma write_only_unpack n data : write_only (unpack n data).
Proof.
  unfold unpack. destruct (Nat.eqb _ _);
    [apply write_only_ret | apply write_only_raise].
Qed.

Lemma write_only_decode_utf8 bs : write_only (decode_utf8 bs).
Proof.
  unfold decode_utf8. destruct (utf8_valid bs);
    [apply write_only_ret | apply write_only_raise].
Qed.

Lemma write_only_datatype_of_int n : write_only (NVSDataType.of_int n).
Proof.
  unfold NVSDataType.of_int.
  repeat (destruct (_ =? _); [apply write_only_ret |]).
  apply write_only_raise.
Qed.

Create HintDb wo discriminated.
#[local] Hint Resolve write_only_ret write_only_raise write_only_out_of_fuel
  write_only_ns_update write_only_unpack write_only_decode_utf8
  write_only_datatype_of_int : wo.

Ltac wo_step :=
  first
    [ apply write_only_bind; [ | intros ? ]
    | progress eauto with wo
    | match goal with
      | |- write_only (if ?c then _ else _) => destruct c
      | |- write_only (let '(_, _) := ?p in _) => destruct p
      | |- write_only (match ?d with _ => _ end) => destruct d
      end ].

Lemma write_only_read_data d data : write_only (NVSEntry.read_data d data).
Proof. destruct d; simpl; repeat wo_step. Qed.

Lemma write_only_entry_init entryData st : write_only (NVSEntry.init entryData st).
Proof.
  unfold NVSEntry.init. repeat wo_step; try apply write_only_read_data.
Qed.

Lemma write_only_readStrValue e data : write_only (NVSEntry.readStrValue e data).
Proof.
  unfold NVSEntry.readStrValue, NVSEntry.getattr_dataType_key.
  destruct (decide _); [repeat wo_step | exact (write_only_raise _)].
Qed.

Lemma write_only_readBlobValue e data : write_only (NVSEntry.readBlobValue e data).
Proof.
  unfold NVSEntry.readBlobValue, NVSEntry.getattr_dataType_key.
  destruct (decide _); [repeat wo_step | exact (write_only_raise _)].
Qed.

Lemma write_only_read_value pageData addr e :
  write_only (NVSPage.read_value pageData addr e).
Proof.
  unfold NVSPage.read_value.
  destruct (decide _); [apply write_only_readStrValue |].
  destruct (decide _); [apply write_only_readBlobValue | apply write_only_ret].
Qed.

#[local] Hint Resolve write_only_entry_init write_only_read_value : wo.

Lemma write_only_read_entry pageData n st :
  write_only (NVSPage.read_entry pageData n st).
Proof.
  unfold NVSPage.read_entry.
  apply write_only_bind; [apply write_only_entry_init | intros e].
  apply write_only_read_value.
Qed.

Lemma write_only_walk fuel pageData entryState :
  forall entryNum entries,
    write_only (NVSPage.walk fuel pageData entryState entryNum entries).
Proof.
  induction fuel as [| fuel IH]; intros n acc; simpl.
  - apply write_only_out_of_fuel.
  - destruct (Nat.ltb n NVSPage.NUM_ENTRIES); [| apply write_only_ret].
    destruct (entryState !! n) as [st |]; [| apply write_only_raise].
    destruct (negb _); [| apply IH].
    apply write_only_bind; [apply write_only_read_entry | intros e].
    apply IH.
Qed.

Lemma write_only_page_init fuel pageData : write_only (NVSPage.init fuel pageData).
Proof.
  unfold NVSPage.init.
  apply write_only_bind; [apply write_only_unpack | intros hdr].
  destruct (NVSPage.is_active_or_full _); [| apply write_only_ret].
  apply write_only_bind; [apply write_only_unpack | intros bm].
  apply write_only_bind; [apply write_only_walk | intros es].
  apply write_only_ret.
Qed.

Lemma write_only_read_pages fuel imageData addrs :
  forall pages, write_only (read_pages fuel imageData addrs pages).
Proof.
  induction addrs as [| a addrs IH]; intros pages; simpl.
  - apply write_only_ret.
  - apply write_only_bind; [apply write_only_page_init | intros p]. apply IH.
Qed.

Lemma write_only_scan fuel imageData : write_only (scan fuel imageData).
Proof.
  unfold scan.
  apply write_only_bind; [apply write_only_read_pages | intros p].
  apply write_only_ret.
Qed.

(** Applying the same sequence of updates a second time changes nothing. *)
Lemma insert_foldl_insert (ups : list (pyvalue * pystr)) k v :
  forall m : gmap pyvalue pystr,
    <[k := v]> (foldl (fun m kv => <[kv.1 := kv.2]> m) (<[k := v]> m) ups)
    = <[k := v]> (foldl (fun m kv => <[kv.1 := kv.2]> m) m ups).
Proof.
  induction ups as [| [k' v'] ups IH]; intros m; simpl.
  - apply insert_insert_eq.
  - destruct (decide (k' = k)) as [-> | Hne].
    + rewrite insert_insert_eq. reflexivity.
    + rewrite (insert_insert_ne m k' k) by exact Hne. apply IH.
Qed.

Lemma foldl_insert_idem (ups : list (pyvalue * pystr)) :
  forall m : gmap pyvalue pystr,
    foldl (fun m kv => <[kv.1 := kv.2]> m)
          (foldl (fun m kv => <[kv.1 := kv.2]> m) m ups) ups
    = foldl (fun m kv => <[kv.1 := kv.2]> m) m ups.
Proof.
  induction ups as [| [k v] ups IH] using rev_ind; intros m.
  - reflexivity.
  - rewrite !foldl_app. simpl. rewrite insert_foldl_insert, IH. reflexivity.
Qed.

Lemma apply_updates_idem ups w :
  apply_updates ups (apply_updates ups w) = apply_updates ups w.
Proof. unfold apply_updates; simpl. rewrite foldl_insert_idem. reflexivity. Qed.

(** ** The writing half reads the table and appends to the file

    A computation is [appends_only] when its outcome and the strings it
    writes are a function of the namespace table alone, and its only effect
    is to append those strings to the file. *)

Lemma appends_only_ret {A} (a : A) : appends_only (ret a).
Proof.
  exists (fun _ _ => (Ok a, [])). intros [N W C L]; simpl.
  rewrite app_nil_r. reflexivity.
Qed.

Lemma appends_only_raise {A} e : appends_only (@raise A e).
Proof.
  exists (fun _ _ => (Raise e, [])). intros [N W C L]; simpl.
  rewrite app_nil_r. reflexivity.
Qed.

Lemma appends_only_file_write s : appends_only (file_write s).
Proof.
  exists (fun _ L => if is_ascii s || L s then (Ok tt, [s])
                     else (Raise UnicodeEncodeError, [])).
  intros [N W C L]. unfold file_write, can_encode. simpl.
  destruct (is_ascii s || L s); simpl; [reflexivity |].
  rewrite app_nil_r. reflexivity.
Qed.

Lemma appends_only_ns_lookup k : appends_only (ns_lookup k).
Proof.
  exists (fun N _ => (match N !! k with Some n => Ok n | None => Raise KeyError end, [])).
  intros [N W C L]; unfold ns_lookup; simpl. rewrite app_nil_r.
  destruct (N !! k); reflexivity.
Qed.

Lemma appends_only_bind {A B} (m : M A) (f : A -> M B) :
  appends_only m -> (forall a, appends_only (f a)) -> appends_only (bind m f).
Proof.
  intros [g Hg] Hf.
  exists (fun N L =>
    match (g N L).1 with
    | Ok a =>
        let r := f a (MkWorld N [] (g N L).2 L) in (r.1, csv r.2)
    | Raise e => (Raise e, (g N L).2)
    | OutOfFuel => (OutOfFuel, (g N L).2)
    end).
  intros w. unfold bind. rewrite Hg.
  destruct ((g (namespaces w) (locale w)).1) as [a | e |]; try reflexivity.
  destruct (Hf a) as [h Hh]. rewrite !Hh. simpl.
  rewrite app_assoc. reflexivity.
Qed.

Lemma appends_only_state_of_int n : appends_only (NVSEntryState.of_int n).
Proof.
  unfold NVSEntryState.of_int.
  repeat (destruct (_ =? _); [apply appends_only_ret |]).
  apply appends_only_raise.
Qed.

Lemma appends_only_str e : appends_only (NVSEntry.str e).
Proof.
  unfold NVSEntry.str.
  apply appends_only_bind; [apply appends_only_state_of_int | intros st].
  apply appends_only_bind; [apply appends_only_ns_lookup | intros name].
  apply appends_only_ret.
Qed.

Lemma appends_only_write_entries pw pe es :
  appends_only (write_entries pw pe es).
Proof.
  induction es as [| e es IH]; simpl.
  - apply appends_only_ret.
  - apply appends_only_bind; [| intros _; exact IH].
    destruct (selected pw pe e); [| apply appends_only_ret].
    apply appends_only_bind; [apply appends_only_str | intros s].
    apply appends_only_file_write.
Qed.

Lemma appends_only_write_pages pw pe pages :
  appends_only (write_pages pw pe pages).
Proof.
  induction pages as [| p pages IH]; simpl.
  - apply appends_only_ret.
  - apply appends_only_bind;
      [apply appends_only_write_entries | intros _; exact IH].
Qed.

Lemma write_pages_written pw pe pages w :
  write_pages pw pe pages w
  = ((written (namespaces w) (locale w) pw pe pages).1,
     MkWorld (namespaces w) (warnings w)
             (csv w ++ (written (namespaces w) (locale w) pw pe pages).2)
             (locale w)).
Proof.
  destruct (appends_only_write_pages pw pe pages) as [g Hg].
  unfold written. rewrite (Hg (MkWorld _ _ _ _)), (Hg w). reflexivity.
Qed.

Lemma can_encode_header w : can_encode w csv_header = true.
Proof. reflexivity. Qed.

(** The whole program in terms of its two halves. *)
Lemma extract_spec fuel imageData pw pe :
  exists r ups,
    (forall w, scan fuel imageData w = (r, apply_updates ups w)) /\
    forall w,
      extractNVSEntries fuel imageData pw pe w =
      match r with
      | Ok pages =>
          let N := namespaces (apply_updates ups w) in
          ((written N (locale w) pw pe pages).1,
           MkWorld N (warnings w)
                   (csv_header :: (written N (locale w) pw pe pages).2) (locale w))
      | Raise e => (Raise e, apply_updates ups w)
      | OutOfFuel => (OutOfFuel, apply_updates ups w)
      end.
Proof.
  destruct (write_only_scan fuel imageData) as (r & ups & Hs).
  exists r, ups. split; [exact Hs |]. intros w.
  unfold extractNVSEntries, bind at 1. rewrite Hs.
  destruct r as [pages | e |]; try reflexivity.
  unfold bind, file_open_w, file_write. rewrite can_encode_header.
  rewrite write_pages_written. reflexivity.
Qed.

(** ** Running the program twice *)

Lemma rescan_same fuel imageData pw pe w :
  let r1 := extractNVSEntries fuel imageData pw pe w in
  let r2 := extractNVSEntries fuel imageData pw pe r1.2 in
  r2.1 = r1.1 /\ csv r2.2 = csv r1.2 /\ namespaces r2.2 = namespaces r1.2.
Proof.
  destruct (extract_spec fuel imageData pw pe) as (r & ups & _ & He).
  cbv zeta. rewrite (He w).
  destruct r as [pages | e |]; rewrite He; simpl;
    rewrite ?foldl_insert_idem; auto.
Qed.

Lemma same_start_same_run fuel imageData pw pe w1 w2 :
  namespaces w1 = namespaces w2 -> locale w1 = locale w2 -> csv w1 = csv w2 ->
  let r1 := extractNVSEntries fuel imageData pw pe w1 in
  let r2 := extractNVSEntries fuel imageData pw pe w2 in
  r1.1 = r2.1 /\ csv r1.2 = csv r2.2 /\ namespaces r1.2 = namespaces r2.2.
Proof.
  intros HN HL HC.
  destruct (extract_spec fuel imageData pw pe) as (r & ups & _ & He).
  cbv zeta. rewrite !He.
  destruct r as [pages | e |]; simpl; rewrite HN, ?HL, ?HC; auto.
Qed.

(** C10 (amended): the run is a function of the buffer, the flags and what
    the process holds when the run starts (the namespace table, which is a
    class attribute, the locale and the output file), not of the buffer
    alone.  Decoding the same buffer a second time in the world the first
    run left behind ends with the same outcome, the same output file and the
    same namespace table; and so do two runs that start from the same
    namespace table, locale and file. *)
Theorem C10_rescan_same_output fuel imageData pw pe :
  (forall w,
     let r1 := extractNVSEntries fuel imageData pw pe w in
     let r2 := extractNVSEntries fuel imageData pw pe r1.2 in
     r2.1 = r1.1 /\ csv r2.2 = csv r1.2 /\ namespaces r2.2 = namespaces r1.2) /\
  (forall w1 w2,
     namespaces w1 = namespaces w2 -> locale w1 = locale w2 -> csv w1 = csv w2 ->
     let r1 := extractNVSEntries fuel imageData pw pe w1 in
     let r2 := extractNVSEntries fuel imageData pw pe w2 in
     r1.1 = r2.1 /\ csv r1.2 = csv r2.2 /\ namespaces r1.2 = namespaces r2.2).
Proof.
  split; [apply rescan_same | apply same_start_same_run].
Qed.

(** ** The sort: a stable, ascending permutation *)







(** ** The slot walk *)

Lemma write_only_outcome {A} (m : M A) w1 w2 :
  write_only m -> (m w1).1 = (m w2).1.
Proof. intros (r & ups & H). rewrite !H. reflexivity. Qed.

Lemma read_entry_outcome pageData n st w1 w2 :
  (NVSPage.read_entry pageData n st w1).1 = (NVSPage.read_entry pageData n st w2).1.
Proof. apply write_only_outcome, write_only_read_entry. Qed.

Lemma walk_S fuel pageData entryState entryNum entries :
  NVSPage.walk (S fuel) pageData entryState entryNum entries =
  if Nat.ltb entryNum NVSPage.NUM_ENTRIES then
    match entryState !! entryNum with
    | None => raise IndexError
    | Some st =>
        if negb (st =? NVSEntryState.to_int NVSEntryState.Empty) then
          bind (NVSPage.read_entry pageData entryNum st) (fun entry =>
            NVSPage.walk fuel pageData entryState
              (entryNum + Z.to_nat (NVSEntry.span entry))%nat
              (entries ++ [entry]))
        else
          NVSPage.walk fuel pageData entryState (entryNum + 1)%nat entries
    end
  else ret entries.
Proof. reflexivity. Qed.

(** A non-empty slot whose entry has span 0 is decoded over and over: the
    cursor does not move and no amount of fuel ends the loop. *)
Lemma walk_stuck pageData states n st e w0 :
  (n < NVSPage.NUM_ENTRIES)%nat ->
  states !! n = Some st ->
  st <> NVSEntryState.to_int NVSEntryState.Empty ->
  (NVSPage.read_entry pageData n st w0).1 = Ok e ->
  Z.to_nat (NVSEntry.span e) = 0%nat ->
  forall fuel entries w,
    (NVSPage.walk fuel pageData states n entries w).1 = OutOfFuel.
Proof.
  intros Hn Hst Hne He Hspan. induction fuel as [| fuel IH]; intros acc w.
  - reflexivity.
  - rewrite walk_S. apply Nat.ltb_lt in Hn. rewrite Hn, Hst.
    apply Z.eqb_neq in Hne. rewrite Hne. cbn [negb]. unfold bind.
    pose proof (read_entry_outcome pageData n st w w0) as Hw. rewrite He in Hw.
    destruct (NVSPage.read_entry pageData n st w) as [r w1]. simpl in Hw. subst r.
    rewrite Hspan, Nat.add_0_r. apply IH.
Qed.

(** A walk that returns has appended, in increasing slot order, the entries
    decoded at the slots its cursor stopped on. *)
Lemma walk_trace pageData states fuel :
  forall n acc w es w',
    NVSPage.walk fuel pageData states n acc w = (Ok es, w') ->
    exists tr : list (nat * NVSEntry.t),
      es = acc ++ map snd tr /\
      StronglySorted lt (map fst tr) /\
      Forall (fun se => (n <= se.1 < NVSPage.NUM_ENTRIES)%nat /\
                        decoded_at pageData states se.1 se.2) tr.
Proof.
  induction fuel as [| fuel IH]; intros n acc w es w' H; [discriminate |].
  rewrite walk_S in H.
  destruct (Nat.ltb_spec n NVSPage.NUM_ENTRIES) as [Hn | Hn].
  2:{ injection H as <- <-. exists []. rewrite app_nil_r.
      repeat split; constructor. }
  destruct (states !! n) as [st |] eqn:Hst; [| discriminate].
  destruct (Z.eqb_spec st (NVSEntryState.to_int NVSEntryState.Empty)) as [Heq | Hne];
    cbn [negb] in H.
  - apply IH in H as (tr & -> & Hs & Hf). exists tr. repeat split; auto.
    eapply Forall_impl; [exact Hf |]. simpl. intros [s e] [Hb Hd]. split; [lia | exact Hd].
  - unfold bind in H.
    destruct (NVSPage.read_entry pageData n st w) as [[e | x |] w1] eqn:He;
      try discriminate.
    destruct (Nat.eq_dec (Z.to_nat (NVSEntry.span e)) 0%nat) as [Hz | Hnz].
    + pose proof (walk_stuck pageData states n st e w Hn Hst Hne
                    ltac:(rewrite He; reflexivity) Hz fuel (acc ++ [e]) w1) as Hk.
      rewrite Hz, Nat.add_0_r in H. rewrite H in Hk. discriminate.
    + apply IH in H as (tr & -> & Hs & Hf).
      exists ((n, e) :: tr). rewrite <- app_assoc. simpl.
      split; [reflexivity |]. split.
      * constructor; [exact Hs |].
        apply Forall_map. eapply Forall_impl; [exact Hf |].
        simpl. intros [s e'] [Hb _]. simpl in *. lia.
      * constructor.
        -- simpl. split; [lia |]. exists st, w, w1. auto.
        -- eapply Forall_impl; [exact Hf |].
           simpl. intros [s e'] [Hb Hd]. split; [simpl in *; lia | exact Hd].
Qed.

Lemma unpack_ok n data w r w' :
  unpack n data w = (Ok r, w') -> r = data /\ w' = w /\ length data = n.
Proof.
  unfold unpack. destruct (Nat.eqb_spec (length data) n); [| discriminate].
  intros [= <- <-]. auto.
Qed.

Lemma page_init_slot_ordered fuel pageData w p w' :
  NVSPage.init fuel pageData w = (Ok p, w') ->
  slot_ordered pageData (NVSPage.entries p).
Proof.
  unfold NVSPage.init, bind. intros H.
  destruct (unpack 32 (slice 0 32 pageData) w) as [[hdr | |] w1] eqn:Hh;
    try discriminate.
  destruct (NVSPage.is_active_or_full _).
  - destruct (unpack 32 (slice 32 64 pageData) w1) as [[bm | |] w2] eqn:Hb;
      try discriminate.
    apply unpack_ok in Hb as (-> & -> & _).
    destruct (NVSPage.walk _ _ _ _ _ _) as [[es | |] w3] eqn:Hw; try discriminate.
    injection H as <- <-. simpl.
    apply walk_trace in Hw as (tr & -> & Hs & Hf).
    exists tr. repeat split; auto.
    eapply Forall_impl; [exact Hf |]. simpl. intros se [Hb Hd]. split; [lia | exact Hd].
  - injection H as <- <-. exists []. repeat split; constructor.
Qed.

Lemma range_step_sorted stop step :
  (0 < step)%nat -> StronglySorted lt (range_step stop step).
Proof.
  intros Hstep. unfold range_step.
  generalize ((stop + step - 1) `div` step)%nat as n. generalize 0%nat as s.
  intros s n. revert s. induction n as [| n IH]; intros s; simpl; constructor.
  - apply IH.
  - apply Forall_map, Forall_forall. intros k Hk. apply elem_of_seq in Hk.
    simpl. nia.
Qed.

(** ** Rendering and the output file *)




(** ** Pages as windows of the image *)

Lemma read_pages_slices fuel imageData addrs :
  forall pages w,
    read_pages fuel imageData addrs pages w
    = read_slices fuel
        (map (fun a => slice a (a + NVSPage.PAGE_SIZE) imageData) addrs) pages w.
Proof.
  induction addrs as [| a addrs IH]; intros pages w; simpl; [reflexivity |].
  unfold bind. destruct (NVSPage.init fuel _ w) as [[p | |] w1]; auto.
Qed.

Lemma seq_add k n : seq k n = map (fun j => (k + j)%nat) (seq 0 n).
Proof.
  induction k as [| k IH]; simpl.
  - rewrite map_id. reflexivity.
  - rewrite <- seq_shift, IH, map_map. reflexivity.
Qed.

Section Windows.
Variable step : nat.
Hypothesis step_pos : (0 < step)%nat.

Lemma range_step_count k m :
  ((k * step + m + step - 1) `div` step = k + (m + step - 1) `div` step)%nat.
Proof.
  replace (k * step + m + step - 1)%nat with (k * step + (m + step - 1))%nat by lia.
  rewrite Nat.div_add_l by lia. reflexivity.
Qed.

Lemma range_step_exact k : ((k * step + step - 1) `div` step = k)%nat.
Proof.
  replace (k * step + step - 1)%nat with (k * step + (step - 1))%nat by lia.
  rewrite Nat.div_add_l, Nat.div_small by lia. lia.
Qed.

Lemma windows_app k (pre rest : bytes) :
  length pre = (k * step)%nat ->
  map (fun a => slice a (a + step) (pre ++ rest))
      (range_step (length (pre ++ rest)) step)
  = map (fun a => slice a (a + step) pre) (range_step (length pre) step)
    ++ map (fun a => slice a (a + step) rest) (range_step (length rest) step).
Proof.
  intros Hlen. unfold range_step.
  rewrite length_app, Hlen, range_step_count, range_step_exact.
  rewrite seq_app, !map_app. f_equal.
  - rewrite !map_map. apply map_ext_in. intros i Hi. apply in_seq in Hi.
    unfold slice.
    rewrite drop_app_le by nia.
    rewrite take_app_le; [reflexivity |]. rewrite length_drop. nia.
  - rewrite (seq_add k), !map_map.
    apply map_ext. intros j. unfold slice.
    replace ((k + j) * step)%nat with (length pre + j * step)%nat by lia.
    rewrite drop_app_add. f_equal. lia.
Qed.

Lemma windows_single (page : bytes) :
  length page = step ->
  map (fun a => slice a (a + step) page) (range_step (length page) step) = [page].
Proof.
  intros Hlen. unfold range_step. rewrite Hlen.
  replace (step + step - 1)%nat with (1 * step + step - 1)%nat by lia.
  rewrite range_step_exact. simpl.
  unfold slice. rewrite drop_0, take_ge by lia. reflexivity.
Qed.
End Windows.

Lemma PAGE_SIZE_pos : (0 < NVSPage.PAGE_SIZE)%nat.
Proof. unfold NVSPage.PAGE_SIZE. lia. Qed.

Lemma page_slices_app k pre rest :
  length pre = (k * NVSPage.PAGE_SIZE)%nat ->
  page_slices (pre ++ rest) = page_slices pre ++ page_slices rest.
Proof. apply windows_app, PAGE_SIZE_pos. Qed.

Lemma page_slices_single page :
  length page = NVSPage.PAGE_SIZE -> page_slices page = [page].
Proof. apply windows_single, PAGE_SIZE_pos. Qed.

Lemma windows_short (l : bytes) :
  (0 < length l <= NVSPage.PAGE_SIZE)%nat -> page_slices l = [l].
Proof.
  intros Hlen. unfold page_slices, range_step.
  assert (Hd : ((length l + NVSPage.PAGE_SIZE - 1) `div` NVSPage.PAGE_SIZE = 1)%nat).
  { symmetry. apply (Nat.div_unique _ _ 1%nat (length l - 1)%nat); lia. }
  rewrite Hd. cbn [seq map]. unfold slice.
  rewrite Nat.mul_0_l, drop_0, take_ge by lia. reflexivity.
Qed.

Lemma page_init_inactive fuel pageData w :
  (32 <= length pageData)%nat ->
  NVSPage.is_active_or_full (header_state pageData) = false ->
  exists p,
    NVSPage.init fuel pageData w = (Ok p, w) /\
    NVSPage.state p = header_state pageData /\ NVSPage.entries p = [].
Proof.
  intros Hlen Hst. unfold NVSPage.init, bind, unpack.
  assert (Hl : length (slice 0 32 pageData) = 32%nat)
    by (unfold slice; rewrite length_take, length_drop; lia).
  rewrite Hl. simpl. fold (header_state pageData). rewrite Hst.
  eexists. split; [reflexivity |]. auto.
Qed.

Lemma read_slices_skip fuel page l2 :
  (32 <= length page)%nat ->
  NVSPage.is_active_or_full (header_state page) = false ->
  forall l1 pages w,
    read_slices fuel (l1 ++ page :: l2) pages w
    = read_slices fuel (l1 ++ l2) pages w.
Proof.
  intros Hlen Hst. induction l1 as [| d l1 IH]; intros pages w; simpl.
  - unfold bind.
    destruct (page_init_inactive fuel page w Hlen Hst) as (p & -> & Hs & _).
    rewrite Hs, Hst. reflexivity.
  - unfold bind. destruct (NVSPage.init fuel d w) as [[p | |] w1]; auto.
Qed.

Lemma not_active_or_full st :
  st <> NVSPageState.to_int NVSPageState.Active ->
  st <> NVSPageState.to_int NVSPageState.Full ->
  NVSPage.is_active_or_full st = false.
Proof.
  intros Ha Hf. unfold NVSPage.is_active_or_full.
  apply Z.eqb_neq in Ha, Hf. rewrite Ha, Hf. reflexivity.
Qed.

Lemma read_pages_skip fuel k pre page post w :
  length pre = (k * NVSPage.PAGE_SIZE)%nat ->
  length page = NVSPage.PAGE_SIZE ->
  NVSPage.is_active_or_full (header_state page) = false ->
  read_pages fuel (pre ++ page ++ post)
    (range_step (length (pre ++ page ++ post)) NVSPage.PAGE_SIZE) [] w
  = read_pages fuel (pre ++ post)
      (range_step (length (pre ++ post)) NVSPage.PAGE_SIZE) [] w.
Proof.
  intros Hpre Hpage Hst. rewrite !read_pages_slices.
  fold (page_slices (pre ++ page ++ post)). fold (page_slices (pre ++ post)).
  rewrite (page_slices_app k pre (page ++ post) Hpre).
  rewrite (page_slices_app 1 page post) by lia.
  rewrite (page_slices_app k pre post Hpre).
  rewrite (page_slices_single page Hpage). simpl.
  apply read_slices_skip; [| exact Hst].
  rewrite Hpage. unfold NVSPage.PAGE_SIZE. lia.
Qed.

(** C8: a 4096-byte page whose header state is neither Active nor Full is
    decoded to a page without entries, with no exception and no effect, and
    the program behaves as if the page were not in the image: whatever the
    page's bitmap and slots hold, the outcome, the output file, the warnings
    and the namespace table are those obtained without it. *)
Theorem C8_inactive_page_skipped fuel k pre page post pw pe w :
  length pre = (k * NVSPage.PAGE_SIZE)%nat ->
  length page = NVSPage.PAGE_SIZE ->
  header_state page <> NVSPageState.to_int NVSPageState.Active ->
  header_state page <> NVSPageState.to_int NVSPageState.Full ->
  (exists p, NVSPage.init fuel page w = (Ok p, w) /\ NVSPage.entries p = []) /\
  extractNVSEntries fuel (pre ++ page ++ post) pw pe w
  = extractNVSEntries fuel (pre ++ post) pw pe w.
Proof.
  intros Hpre Hpage Ha Hf.
  pose proof (not_active_or_full _ Ha Hf) as Hst. split.
  - destruct (page_init_inactive fuel page w) as (p & Hp & _ & He); auto.
    + rewrite Hpage. unfold NVSPage.PAGE_SIZE. lia.
    + eauto.
  - unfold extractNVSEntries, scan. unfold bind at 1 2 5 6.
    rewrite (read_pages_skip fuel k pre page post w Hpre Hpage Hst). reflexivity.
Qed.

Lemma C8_inactive_page_skipped_witness :
  (exists p, NVSPage.init 127 empty_state_page world0 = (Ok p, world0)
             /\ NVSPage.entries p = []) /\
  extractNVSEntries 127 (page_seq5 ++ empty_state_page ++ page_seq2) true true world0
  = extractNVSEntries 127 (page_seq5 ++ page_seq2) true true world0.
Proof.
  apply (C8_inactive_page_skipped 127 1 page_seq5 empty_state_page page_seq2).
  - vm_compute. reflexivity.
  - vm_compute. reflexivity.
  - vm_compute. discriminate.
  - vm_compute. discriminate.
Defined.

(** ** C5: the order of the output *)



Lemma decodes_to_fun fuel pageData p q w :
  decodes_to fuel pageData p -> (NVSPage.init fuel pageData w).1 = Ok q -> p = q.
Proof. intros [Hp _] Hq. rewrite Hp in Hq. congruence. Qed.



Example two_pages_output :
  csv (extractNVSEntries 127 two_pages true false world0).2 =
  [ csv_header;
    "Written,uint8_t,1,wifi,chan,6" +:+ newline;
    "Written,int32_t,4,wifi,rssi,-70" +:+ newline;
    "Written,uint8_t,1,Namespace,wifi,1" +:+ newline;
    "Written,string,5,wifi,ssid,home" +:+ newline ].
Proof. vm_compute. reflexivity. Qed.


(** ** Computations that return *)

Lemma returns_ret {A} (a : A) : returns (ret a).
Proof. intros w. discriminate. Qed.

Lemma returns_raise {A} e : returns (@raise A e).
Proof. intros w. discriminate. Qed.

Lemma returns_bind {A B} (m : M A) (f : A -> M B) :
  returns m -> (forall a, returns (f a)) -> returns (bind m f).
Proof.
  intros Hm Hf w. unfold bind. specialize (Hm w).
  destruct (m w) as [[a | e |] w1]; simpl in *; try discriminate.
  - apply Hf.
  - congruence.
Qed.

Lemma returns_unpack n data : returns (unpack n data).
Proof. unfold unpack. destruct (Nat.eqb _ _); [apply returns_ret | apply returns_raise]. Qed.

Lemma returns_decode_utf8 bs : returns (decode_utf8 bs).
Proof. unfold decode_utf8. destruct (utf8_valid bs); [apply returns_ret | apply returns_raise]. Qed.

Lemma returns_datatype_of_int n : returns (NVSDataType.of_int n).
Proof.
  unfold NVSDataType.of_int.
  repeat (destruct (_ =? _); [apply returns_ret |]). apply returns_raise.
Qed.

Lemma returns_ns_update k name : returns (ns_update k name).
Proof. intros w. discriminate. Qed.

#[local] Hint Resolve returns_ret returns_raise returns_unpack
  returns_decode_utf8 returns_datatype_of_int returns_ns_update : wo.

Ltac returns_step :=
  first
    [ apply returns_bind; [ | intros ? ]
    | progress eauto with wo
    | match goal with
      | |- returns (if ?c then _ else _) => destruct c
      | |- returns (let '(_, _) := ?p in _) => destruct p
      end ].

Lemma returns_read_data d data : returns (NVSEntry.read_data d data).
Proof. destruct d; simpl; repeat returns_step. Qed.

Lemma returns_entry_init entryData st : returns (NVSEntry.init entryData st).
Proof. unfold NVSEntry.init. repeat returns_step; try apply returns_read_data. Qed.

Lemma returns_read_value pageData addr e :
  returns (NVSPage.read_value pageData addr e).
Proof.
  unfold NVSPage.read_value, NVSEntry.readStrValue, NVSEntry.readBlobValue,
    NVSEntry.getattr_dataType_key.
  repeat (destruct (decide _)); repeat returns_step; intros w; discriminate.
Qed.

Lemma returns_read_entry pageData n st : returns (NVSPage.read_entry pageData n st).
Proof.
  unfold NVSPage.read_entry.
  apply returns_bind; [apply returns_entry_init | intros e; apply returns_read_value].
Qed.

(** ** What a decoded entry holds *)

Lemma bind_ok_inv {A B} (m : M A) (f : A -> M B) w b w' :
  bind m f w = (Ok b, w') ->
  exists a w1, m w = (Ok a, w1) /\ f a w1 = (Ok b, w').
Proof.
  unfold bind. destruct (m w) as [[a | e |] w1]; try discriminate. eauto.
Qed.

Lemma datatype_of_int_ok n w d w' :
  NVSDataType.of_int n w = (Ok d, w') -> w' = w /\ NVSDataType.to_int d = n.
Proof.
  unfold NVSDataType.of_int, ret, raise.
  repeat match goal with
         | |- context [n =? ?b] =>
             destruct (Z.eqb_spec n b);
             [cbv beta; intros [= <- <-]; split; [reflexivity | symmetry; assumption] |]
         end.
  cbv beta. discriminate.
Qed.

Lemma entry_init_fields entryData st w e w' :
  NVSEntry.init entryData st w = (Ok e, w') ->
  NVSEntry.span e = uint_le (slice 2 3 (slice 0 24 entryData)) /\
  NVSEntry.crc e = uint_le (slice 4 8 (slice 0 24 entryData)) /\
  NVSEntry.state e = st /\
  NVSDataType.of_int (uint_le (slice 1 2 (slice 0 24 entryData))) w
  = (Ok (NVSEntry.datatype e), w).
Proof.
  unfold NVSEntry.init. intros H.
  apply bind_ok_inv in H as (hdr & w1 & Hh & H).
  apply unpack_ok in Hh as (-> & -> & _).
  apply bind_ok_inv in H as (d & w2 & Hd & H).
  pose proof (datatype_of_int_ok _ _ _ _ Hd) as [-> _].
  apply bind_ok_inv in H as (k & w3 & Hk & H).
  destruct (negb _).
  - apply bind_ok_inv in H as ([[sz v] dc] & w4 & Hr & H).
    apply bind_ok_inv in H as (u & w5 & Hu & H).
    injection H as <- <-. simpl. auto.
  - injection H as <- <-. simpl. auto.
Qed.

Lemma read_value_fields pageData addr e0 w e w' :
  NVSPage.read_value pageData addr e0 w = (Ok e, w') ->
  NVSEntry.span e = NVSEntry.span e0 /\ NVSEntry.state e = NVSEntry.state e0 /\
  NVSEntry.datatype e = NVSEntry.datatype e0 /\ NVSEntry.size e = NVSEntry.size e0 /\
  NVSEntry.crc e = NVSEntry.crc e0.
Proof.
  unfold NVSPage.read_value. intros H.
  destruct (decide (NVSEntry.datatype e0 = NVSDataType.string)) as [Hs | Hs].
  - unfold NVSEntry.readStrValue in H.
    destruct (decide _) as [_ | Hn]; [| contradiction].
    apply bind_ok_inv in H as (raw & w1 & _ & H).
    apply bind_ok_inv in H as (s & w2 & _ & H). injection H as <- <-. simpl. auto.
  - destruct (decide (NVSEntry.datatype e0 = NVSDataType.blob_data)) as [Hb | Hb].
    + unfold NVSEntry.readBlobValue in H.
      destruct (decide _) as [_ | Hn]; [| contradiction].
      injection H as <- <-. simpl. auto.
    + injection H as <- <-. auto.
Qed.

Lemma read_entry_fields pageData n st w e w' :
  NVSPage.read_entry pageData n st w = (Ok e, w') ->
  NVSEntry.span e = span_byte pageData n /\ NVSEntry.state e = st.
Proof.
  unfold NVSPage.read_entry. intros H.
  apply bind_ok_inv in H as (e0 & w1 & H0 & H).
  apply entry_init_fields in H0 as (Hs & _ & Hst & _).
  apply read_value_fields in H as (-> & -> & _). auto.
Qed.

(** ** C1: forward progress of the slot walk *)

Lemma walk_progress pageData states :
  forall k fuel n acc w,
    (NVSPage.NUM_ENTRIES - n <= k)%nat -> (k < fuel)%nat ->
    progresses k pageData states n = true ->
    (NVSPage.walk fuel pageData states n acc w).1 <> OutOfFuel.
Proof.
  induction k as [| k IH]; intros fuel n acc w Hk Hfuel Hp;
    (destruct fuel as [| fuel]; [lia |]); rewrite walk_S.
  - destruct (Nat.ltb_spec n NVSPage.NUM_ENTRIES); [lia | discriminate].
  - cbn [progresses] in Hp. destruct (Nat.ltb_spec n NVSPage.NUM_ENTRIES) as [Hn | Hn];
      [| discriminate].
    destruct (states !! n) as [st |]; [| discriminate].
    destruct (st =? NVSEntryState.to_int NVSEntryState.Empty); cbn [negb].
    + apply IH; [lia | lia | exact Hp].
    + apply andb_prop in Hp as [Hspan Hp]. apply Z.leb_le in Hspan.
      unfold bind. pose proof (returns_read_entry pageData n st w) as Hr.
      destruct (NVSPage.read_entry pageData n st w) as [[e | x |] w1] eqn:He;
        simpl in Hr; try congruence; try discriminate.
      apply read_entry_fields in He as [Hs _]. rewrite Hs.
      apply IH; [lia | lia | exact Hp].
Qed.

(** C1 (amended): the cursor advances by the stored span byte, without a
    clamp; on a page where every non-empty slot the cursor stops on has a
    span byte of at least 1, decoding the page ends (with a page or with an
    exception) within 127 evaluations of the loop test. *)
Theorem C1_walk_terminates fuel pageData w :
  (NVSPage.NUM_ENTRIES < fuel)%nat ->
  progresses NVSPage.NUM_ENTRIES pageData
    (NVSPage.unpack_states (slice 32 64 pageData)) 0 = true ->
  (NVSPage.init fuel pageData w).1 <> OutOfFuel.
Proof.
  intros Hfuel Hp. unfold NVSPage.init.
  apply returns_bind; [apply returns_unpack | intros hdr].
  destruct (NVSPage.is_active_or_full _); [| apply returns_ret].
  intros w1. unfold bind.
  destruct (unpack 32 (slice 32 64 pageData) w1) as [[bm | x |] w2] eqn:Hb;
    try discriminate.
  - apply unpack_ok in Hb as (-> & -> & _).
    pose proof (walk_progress pageData _ NVSPage.NUM_ENTRIES fuel 0%nat [] w1
                  ltac:(lia) Hfuel Hp) as Hw.
    clear Hp.
    destruct (NVSPage.walk _ _ _ _ _ _) as [[es | y |] w3];
      cbn [fst] in Hw |- *; [discriminate | discriminate | congruence].
  - pose proof (returns_unpack 32 (slice 32 64 pageData) w1) as Hu.
    rewrite Hb in Hu. simpl in Hu. congruence.
Qed.

Lemma C1_walk_terminates_witness :
  (NVSPage.NUM_ENTRIES < 127)%nat /\
  progresses NVSPage.NUM_ENTRIES page_seq5
    (NVSPage.unpack_states (slice 32 64 page_seq5)) 0 = true /\
  (NVSPage.init 127 page_seq5 world0).1 <> OutOfFuel.
Proof.
  split; [unfold NVSPage.NUM_ENTRIES; lia |].
  split; [vm_compute; reflexivity |].
  apply C1_walk_terminates; [unfold NVSPage.NUM_ENTRIES; lia | vm_compute; reflexivity].
Defined.

Lemma page_init_out_of_fuel fuel pageData w :
  (64 <= length pageData)%nat ->
  NVSPage.is_active_or_full (header_state pageData) = true ->
  (forall w1, (NVSPage.walk fuel pageData
                 (NVSPage.unpack_states (slice 32 64 pageData)) 0 [] w1).1
              = OutOfFuel) ->
  (NVSPage.init fuel pageData w).1 = OutOfFuel.
Proof.
  intros Hlen Hst Hw. unfold NVSPage.init, bind, unpack.
  assert (Hl : length (slice 0 32 pageData) = 32%nat)
    by (unfold slice; rewrite length_take, length_drop; lia).
  assert (Hl2 : length (slice 32 64 pageData) = 32%nat)
    by (unfold slice; rewrite length_take, length_drop; lia).
  rewrite Hl. simpl. fold (header_state pageData). rewrite Hst, Hl2. simpl.
  specialize (Hw w).
  destruct (NVSPage.walk _ _ _ _ _ _) as [[es | y |] w3]; simpl in *; congruence.
Qed.

(** C1, as stated, fails: on [span0_page] no amount of fuel lets the page
    decoder return; the cursor stays on slot 0. *)
Lemma C1_span0_never_returns :
  ~ exists fuel, (NVSPage.init fuel span0_page world0).1 <> OutOfFuel.
Proof.
  intros [fuel H]. apply H. apply page_init_out_of_fuel.
  - vm_compute. lia.
  - vm_compute. reflexivity.
  - intros w1.
    eapply (walk_stuck span0_page _ 0 2 _ world0).
    + unfold NVSPage.NUM_ENTRIES. lia.
    + vm_compute. reflexivity.
    + discriminate.
    + vm_compute. reflexivity.
    + reflexivity.
Qed.

(** ** C2: an unrecognized type tag *)

Lemma datatype_of_int_unrecognized tag w :
  recognized tag = false -> NVSDataType.of_int tag w = (Raise ValueError, w).
Proof.
  unfold recognized, all_datatypes. cbn [existsb NVSDataType.to_int]. intros H.
  repeat (apply orb_false_elim in H as [? H]).
  unfold NVSDataType.of_int.
  repeat match goal with
         | E : (?c =? tag) = false |- _ =>
             rewrite Z.eqb_sym in E; rewrite E; clear E
         end.
  reflexivity.
Qed.

(** C2: on a slot of at least 24 bytes whose tag byte is not one of the
    eleven type tags, [NVSEntry.init] raises [ValueError] at the enum
    conversion: no entry is built, no warning is issued and the namespace
    table is untouched. *)
Theorem C2_unknown_tag_raises entryData st w :
  (24 <= length entryData)%nat ->
  recognized (tag_byte entryData) = false ->
  NVSEntry.init entryData st w = (Raise ValueError, w).
Proof.
  intros Hlen Htag. unfold NVSEntry.init, bind, unpack.
  assert (Hl : length (slice 0 24 entryData) = 24%nat)
    by (unfold slice; rewrite length_take, length_drop; lia).
  rewrite Hl. simpl. fold (tag_byte entryData).
  rewrite (datatype_of_int_unrecognized _ _ Htag). reflexivity.
Qed.

Lemma C2_unknown_tag_raises_witness :
  (24 <= length unknown_tag_slot)%nat /\
  recognized (tag_byte unknown_tag_slot) = false /\
  NVSEntry.init unknown_tag_slot 2 world0 = (Raise ValueError, world0).
Proof.
  split; [vm_compute; lia |]. split; [reflexivity |].
  apply C2_unknown_tag_raises; [vm_compute; lia | reflexivity].
Defined.

(** The exception is not caught anywhere: the page, and the whole run, end
    with it, before the output file is opened. *)
Example unknown_tag_page_aborts :
  (NVSPage.init 127 unknown_tag_page world0).1 = Raise ValueError /\
  extractNVSEntries 127 unknown_tag_page true true world0
  = (Raise ValueError, world0).
Proof. split; vm_compute; reflexivity. Qed.

(** ** C3: the namespace lookup of [__str__] *)

(** C3 (amended): for an entry that reaches the output (state Written or
    Erased), [str] succeeds exactly when the entry's namespace id has a
    binding in the table, and then uses the bound name; without a binding
    the lookup raises [KeyError].  The world is not changed. *)
Theorem C3_namespace_lookup pw pe e w :
  selected pw pe e = true ->
  NVSEntry.str e w =
  (match namespaces w !! VInt (NVSEntry.ns e) with
   | Some name =>
       Ok ((if NVSEntry.state e =? 0 then "Erased" else "Written") +:+ ","
           +:+ NVSDataType.name (NVSEntry.datatype e) +:+ ","
           +:+ str_int (NVSEntry.size e) +:+ "," +:+ name +:+ ","
           +:+ NVSEntry.key e +:+ "," +:+ str_value (NVSEntry.value e))
   | None => Raise KeyError
   end, w).
Proof.
  unfold selected. intros Hsel.
  assert (Hst : NVSEntry.state e = 2 \/ NVSEntry.state e = 0).
  { apply orb_prop in Hsel as [H | H]; apply andb_prop in H as [_ H];
      apply Z.eqb_eq in H; [left | right]; exact H. }
  unfold NVSEntry.str, bind, NVSEntryState.of_int, ns_lookup, ret.
  destruct Hst as [-> | ->]; simpl; destruct (namespaces w !! _); reflexivity.
Qed.

Lemma C3_namespace_lookup_witness :
  selected true false orphan_entry = true /\
  NVSEntry.str orphan_entry world0 = (Raise KeyError, world0).
Proof.
  split; [reflexivity |].
  exact (C3_namespace_lookup true false orphan_entry world0 eq_refl).
Defined.

(** C3, as stated, fails: the entry of [orphan_page] is decoded, and
    rendering it raises [KeyError]; the run ends with the header as the only
    thing written. *)
Lemma C3_unbound_namespace_fails :
  (NVSPage.init 127 orphan_page world0).1
  = Ok (NVSPage.Make 0xfffffffe 1 0xfe 0 [orphan_entry]) /\
  NVSEntry.str orphan_entry world0 = (Raise KeyError, world0) /\
  (extractNVSEntries 127 orphan_page true false world0).1 = Raise KeyError /\
  csv (extractNVSEntries 127 orphan_page true false world0).2 = [csv_header].
Proof. repeat split; vm_compute; reflexivity. Qed.

(** ** C6: reading a string value *)

Lemma slice_0 n (data : bytes) : slice 0 n data = take n data.
Proof. unfold slice. rewrite Nat.sub_0_r, drop_0. reflexivity. Qed.

Lemma unpack_take n (data : bytes) w :
  unpack n (take n data) w =
  if (n <=? length data)%nat then (Ok (take n data), w) else (Raise struct_error, w).
Proof.
  unfold unpack. rewrite length_take.
  destruct (Nat.leb_spec n (length data)) as [Hle | Hgt].
  - rewrite Nat.min_l by lia. rewrite Nat.eqb_refl. reflexivity.
  - rewrite Nat.min_r by lia.
    destruct (Nat.eqb_spec (length data) n); [lia | reflexivity].
Qed.

Lemma readStrValue_string e data w :
  NVSEntry.datatype e = NVSDataType.string ->
  NVSEntry.readStrValue e data w =
  let n := Z.to_nat (NVSEntry.size e) in
  let payload := rstrip0 (take n data) in
  (if (n <=? length data)%nat then
     if utf8_valid payload
     then Ok (NVSEntry.set_value e (VStr (string_of_list_byte payload)))
     else Raise UnicodeDecodeError
   else Raise struct_error, w).
Proof.
  intros Hd. unfold NVSEntry.readStrValue.
  destruct (decide _) as [_ | Hn]; [| contradiction].
  unfold bind. rewrite slice_0, unpack_take. cbv zeta.
  destruct (Nat.leb _ _); [| reflexivity].
  unfold decode_utf8. destruct (utf8_valid _); reflexivity.
Qed.

(** C6 (amended): for a string entry, [readStrValue] takes [size] bytes,
    strips the trailing NULs and decodes strictly; there is no raw-byte
    fallback.  The value is the decoded text when [size] bytes are there and
    the stripped payload is well-formed UTF-8; otherwise the call raises
    [UnicodeDecodeError], or [struct.error] when fewer than [size] bytes are
    left. *)
Theorem C6_readStrValue e data w :
  NVSEntry.datatype e = NVSDataType.string ->
  NVSEntry.readStrValue e data w =
  let n := Z.to_nat (NVSEntry.size e) in
  let payload := rstrip0 (take n data) in
  (if (n <=? length data)%nat then
     if utf8_valid payload
     then Ok (NVSEntry.set_value e (VStr (string_of_list_byte payload)))
     else Raise UnicodeDecodeError
   else Raise struct_error, w).
Proof. apply readStrValue_string. Qed.

Lemma C6_readStrValue_witness :
  NVSEntry.datatype ascii_entry = NVSDataType.string /\
  NVSEntry.readStrValue ascii_entry (ascii_bytes "home" ++ [B 0; B 0xff]) world0
  = (Ok (NVSEntry.set_value ascii_entry (VStr "home")), world0).
Proof.
  split; [reflexivity |].
  exact (C6_readStrValue ascii_entry (ascii_bytes "home" ++ [B 0; B 0xff]) world0
           eq_refl).
Defined.

(** C6, as stated, fails: the payload ff fe is not rendered as raw bytes;
    [readStrValue] raises, and with it the page decoder and the whole run,
    which writes nothing. *)
Lemma C6_invalid_utf8_raises :
  NVSEntry.readStrValue bad_utf8_entry [B 0xff; B 0xfe] world0
  = (Raise UnicodeDecodeError, world0) /\
  (NVSPage.init 127 bad_utf8_page world0).1 = Raise UnicodeDecodeError /\
  (extractNVSEntries 127 bad_utf8_page true true world0).1 = Raise UnicodeDecodeError /\
  csv (extractNVSEntries 127 bad_utf8_page true true world0).2 = [].
Proof. repeat split; vm_compute; reflexivity. Qed.

(** ** C7: a slot whose bitmap state is the invalid value 1 *)

Lemma write_only_frame {A} (m : M A) w :
  write_only m -> warnings (m w).2 = warnings w /\ csv (m w).2 = csv w.
Proof. intros (r & ups & H). rewrite H. auto. Qed.

Lemma walk_step fuel pageData states n st acc w e w1 :
  (n < NVSPage.NUM_ENTRIES)%nat ->
  states !! n = Some st ->
  st <> NVSEntryState.to_int NVSEntryState.Empty ->
  NVSPage.read_entry pageData n st w = (Ok e, w1) ->
  NVSPage.walk (S fuel) pageData states n acc w
  = NVSPage.walk fuel pageData states (n + Z.to_nat (NVSEntry.span e)) (acc ++ [e]) w1.
Proof.
  intros Hn Hst Hne He. rewrite walk_S.
  apply Nat.ltb_lt in Hn. apply Z.eqb_neq in Hne.
  rewrite Hn, Hst, Hne. cbn [negb]. unfold bind. rewrite He. reflexivity.
Qed.

(** C7 (amended): a slot whose bitmap state is 1 is treated like any other
    non-empty slot.  When its bytes decode to an entry, that entry (with
    state 1) is appended to the page's entries, the cursor advances by the
    entry's stored span and no warning is issued; the entry is kept out of
    the output by the filter on Written and Erased alone. *)
Theorem C7_invalid_state_slot fuel pageData states n acc w e w1 pw pe :
  (n < NVSPage.NUM_ENTRIES)%nat ->
  states !! n = Some 1 ->
  NVSPage.read_entry pageData n 1 w = (Ok e, w1) ->
  NVSPage.walk (S fuel) pageData states n acc w
  = NVSPage.walk fuel pageData states
      (n + Z.to_nat (span_byte pageData n)) (acc ++ [e]) w1 /\
  NVSEntry.state e = 1 /\
  warnings w1 = warnings w /\
  selected pw pe e = false.
Proof.
  intros Hn Hst He.
  pose proof (read_entry_fields _ _ _ _ _ _ He) as [Hspan Hstate].
  split; [| split; [exact Hstate | split]].
  - rewrite <- Hspan. apply (walk_step fuel pageData states n 1); auto.
  - destruct (write_only_frame _ w (write_only_read_entry pageData n 1)) as [Hw _].
    rewrite He in Hw. exact Hw.
  - unfold selected. rewrite Hstate. simpl. rewrite !andb_false_r. reflexivity.
Qed.

Lemma C7_invalid_state_slot_witness :
  let states := NVSPage.unpack_states (slice 32 64 state1_page) in
  (0 < NVSPage.NUM_ENTRIES)%nat /\
  states !! 0%nat = Some 1 /\
  NVSPage.read_entry state1_page 0 1 world0 = (Ok state1_entry, world0) /\
  NVSPage.walk 127 state1_page states 0 [] world0
  = NVSPage.walk 126 state1_page states
      (0 + Z.to_nat (span_byte state1_page 0)) ([] ++ [state1_entry]) world0 /\
  NVSEntry.state state1_entry = 1 /\
  warnings world0 = warnings world0 /\
  selected true true state1_entry = false.
Proof.
  split; [unfold NVSPage.NUM_ENTRIES; lia |].
  split; [vm_compute; reflexivity |].
  split; [vm_compute; reflexivity |].
  apply (C7_invalid_state_slot 126 state1_page _ 0 [] world0 state1_entry world0
           true true).
  - unfold NVSPage.NUM_ENTRIES; lia.
  - vm_compute; reflexivity.
  - vm_compute; reflexivity.
Defined.

(** C7, as stated, fails: the state-1 slot of [state1_page] yields an entry
    of the page, two slots are consumed (the Written entry of slot 1 is never
    decoded and is missing from the output), and no warning is issued. *)
Lemma C7_state1_slot_decoded :
  NVSPage.init 127 state1_page world0
  = (Ok (NVSPage.Make 0xfffffffe 1 0xfe 0 [state1_entry]), world0) /\
  NVSEntry.span state1_entry = 2 /\
  (extractNVSEntries 127 state1_page true true world0).1 = Ok tt /\
  csv (extractNVSEntries 127 state1_page true true world0).2 = [csv_header] /\
  warnings (extractNVSEntries 127 state1_page true true world0).2 = [].
Proof. repeat split; vm_compute; reflexivity. Qed.

(** ** C9: a value larger than what is left of the page *)

Lemma read_value_blob pageData addr e0 w e w' :
  NVSPage.read_value pageData addr e0 w = (Ok e, w') ->
  NVSEntry.datatype e0 = NVSDataType.blob_data ->
  e = NVSEntry.set_value e0
        (VStr ("b'" +:+ hex (take (Z.to_nat (NVSEntry.size e0))
                                  (drop (addr + NVSPage.ENTRY_SIZE) pageData))
               +:+ "'")).
Proof.
  unfold NVSPage.read_value, NVSEntry.readBlobValue, slice_from. intros H Hd.
  rewrite Hd in H. simpl in H. rewrite slice_0 in H. injection H as <- _.
  reflexivity.
Qed.

Lemma read_value_string pageData addr e0 w e w' :
  NVSPage.read_value pageData addr e0 w = (Ok e, w') ->
  NVSEntry.datatype e0 = NVSDataType.string ->
  let rest := drop (addr + NVSPage.ENTRY_SIZE) pageData in
  (Z.to_nat (NVSEntry.size e0) <= length rest)%nat /\
  e = NVSEntry.set_value e0
        (VStr (string_of_list_byte
                 (rstrip0 (take (Z.to_nat (NVSEntry.size e0)) rest)))).
Proof.
  unfold NVSPage.read_value, slice_from. intros H Hd. cbv zeta.
  destruct (decide _) as [_ | Hn]; [| contradiction].
  rewrite (readStrValue_string _ _ _ Hd) in H. cbv zeta in H.
  destruct (Nat.leb_spec (Z.to_nat (NVSEntry.size e0))
              (length (drop (addr + NVSPage.ENTRY_SIZE) pageData))) as [Hle | Hgt];
    [| discriminate].
  destruct (utf8_valid _); [| discriminate].
  injection H as <- _. auto.
Qed.

(** C9 (amended): the payload of a string or blob-data entry at slot [n] is
    taken from the bytes of the same page that follow the slot, and from
    nowhere else: a blob is rendered from the first [size] of those bytes,
    cut off at the end of the page, and a string is only decoded when [size]
    of them are there.  No span check is made and no warning is issued: the
    walk goes on at the cursor plus the stored span. *)
Theorem C9_payload_within_page fuel pageData states n st acc w e w' :
  (n < NVSPage.NUM_ENTRIES)%nat ->
  states !! n = Some st ->
  st <> NVSEntryState.to_int NVSEntryState.Empty ->
  NVSPage.read_entry pageData n st w = (Ok e, w') ->
  let rest := drop ((n + 3) * 32) pageData in
  let payload := take (Z.to_nat (NVSEntry.size e)) rest in
  (NVSEntry.datatype e = NVSDataType.blob_data ->
     NVSEntry.value e = VStr ("b'" +:+ hex payload +:+ "'")) /\
  (NVSEntry.datatype e = NVSDataType.string ->
     (Z.to_nat (NVSEntry.size e) <= length rest)%nat /\
     NVSEntry.value e = VStr (string_of_list_byte (rstrip0 payload))) /\
  warnings w' = warnings w /\
  NVSPage.walk (S fuel) pageData states n acc w
  = NVSPage.walk fuel pageData states
      (n + Z.to_nat (span_byte pageData n)) (acc ++ [e]) w'.
Proof.
  intros Hn Hst Hne He. cbv zeta.
  pose proof (read_entry_fields _ _ _ _ _ _ He) as [Hspan _].
  pose proof He as He'. unfold NVSPage.read_entry in He'. cbv zeta in He'.
  apply bind_ok_inv in He' as (e0 & w1 & _ & Hv).
  pose proof (read_value_fields _ _ _ _ _ _ Hv) as (_ & _ & Hd & Hsz & _).
  replace ((n + 3) * 32)%nat with ((n + 2) * NVSPage.ENTRY_SIZE + NVSPage.ENTRY_SIZE)%nat
    by (unfold NVSPage.ENTRY_SIZE; lia).
  split; [| split; [| split]].
  - intros Hb. rewrite Hd in Hb.
    rewrite (read_value_blob _ _ _ _ _ _ Hv Hb). reflexivity.
  - intros Hs. rewrite Hd in Hs.
    destruct (read_value_string _ _ _ _ _ _ Hv Hs) as [Hle ->]. simpl. auto.
  - destruct (write_only_frame _ w (write_only_read_entry pageData n st)) as [Hw _].
    rewrite He in Hw. exact Hw.
  - rewrite <- Hspan. apply (walk_step fuel pageData states n st); auto.
Qed.

Lemma C9_payload_within_page_witness :
  let states := NVSPage.unpack_states (slice 32 64 blob_page) in
  let w' := (NVSPage.read_entry blob_page 0 2 world0).2 in
  NVSPage.read_entry blob_page 0 2 world0 = (Ok blob_entry, w') /\
  (NVSEntry.datatype blob_entry = NVSDataType.blob_data ->
     NVSEntry.value blob_entry
     = VStr ("b'" +:+ hex (take (Z.to_nat (NVSEntry.size blob_entry))
                                (drop ((0 + 3) * 32) blob_page)) +:+ "'")) /\
  (NVSEntry.datatype blob_entry = NVSDataType.string ->
     (Z.to_nat (NVSEntry.size blob_entry) <= length (drop ((0 + 3) * 32) blob_page))%nat /\
     NVSEntry.value blob_entry
     = VStr (string_of_list_byte
               (rstrip0 (take (Z.to_nat (NVSEntry.size blob_entry))
                              (drop ((0 + 3) * 32) blob_page))))) /\
  warnings w' = warnings world0 /\
  NVSPage.walk 127 blob_page states 0 [] world0
  = NVSPage.walk 126 blob_page states
      (0 + Z.to_nat (span_byte blob_page 0)) ([] ++ [blob_entry]) w'.
Proof.
  cbv zeta. split; [vm_compute; reflexivity |].
  apply (C9_payload_within_page 126 blob_page
           (NVSPage.unpack_states (slice 32 64 blob_page)) 0 2 [] world0).
  - unfold NVSPage.NUM_ENTRIES; lia.
  - vm_compute; reflexivity.
  - discriminate.
  - vm_compute; reflexivity.
Defined.

(** C9, as stated, fails: the blob of [overflow_page] claims 65535 bytes,
    far more than the page holds; the decoder renders the 4000 bytes that
    are left, issues no warning and goes on to decode the entry of slot 1. *)
Lemma C9_oversize_blob_not_rejected :
  let r := NVSPage.init 127 overflow_page world0 in
  (exists p, r.1 = Ok p /\
     map NVSEntry.key (NVSPage.entries p) = ["blob"; "next"] /\
     map NVSEntry.size (NVSPage.entries p) = [65535; 1] /\
     map NVSEntry.span (NVSPage.entries p) = [1; 1]) /\
  warnings r.2 = [] /\
  (extractNVSEntries 127 overflow_page true true world0).1 = Ok tt /\
  length (csv (extractNVSEntries 127 overflow_page true true world0).2) = 3%nat /\
  warnings (extractNVSEntries 127 overflow_page true true world0).2 = [].
Proof.
  cbv zeta. split; [| repeat split; vm_compute; reflexivity].
  eexists. split; [vm_compute; reflexivity |].
  repeat split; vm_compute; reflexivity.
Qed.

(** ** C4: the stored CRC fields *)

Example crc32_check : crc32 (ascii_bytes "123456789") = 0xCBF43926.
Proof. vm_compute. reflexivity. Qed.

Lemma entry_crc_ignored b0 b1 b2 b3 c0 c1 c2 c3 d0 d1 d2 d3 rest st w :
  NVSEntry.init (b0 :: b1 :: b2 :: b3 :: c0 :: c1 :: c2 :: c3 :: rest) st w
  = on_ok (fun e => set_crc e (uint_le [c0; c1; c2; c3]))
      (NVSEntry.init (b0 :: b1 :: b2 :: b3 :: d0 :: d1 :: d2 :: d3 :: rest) st w).
Proof.
  unfold NVSEntry.init, slice, bind, unpack, ret, on_ok.
  cbn [firstn skipn Nat.sub length Nat.eqb fst snd].
  destruct (Nat.eqb _ _); [| reflexivity].
  cbn [firstn skipn Nat.sub fst snd].
  destruct (NVSDataType.of_int _ w) as [[d | x |] w1]; [| reflexivity ..].
  destruct (decode_utf8 _ w1) as [[k | x |] w2]; [| reflexivity ..].
  destruct (negb _); [| reflexivity].
  destruct (NVSEntry.read_data d _ w2) as [[[[sz v] dc] | x |] w3]; [| reflexivity ..].
  destruct (_ =? _); reflexivity.
Qed.

Lemma slice_app_l a b (l1 l2 : bytes) :
  (b <= length l1)%nat -> slice a b (l1 ++ l2) = slice a b l1.
Proof.
  intros Hb. unfold slice. destruct (le_lt_dec a b) as [Hab | Hab].
  - rewrite drop_app_le by lia. apply take_app_le. rewrite length_drop. lia.
  - replace (b - a)%nat with 0%nat by lia. reflexivity.
Qed.

Lemma drop_drop_le (l : bytes) a b : (a <= b)%nat -> drop b l = drop (b - a) (drop a l).
Proof. intros H. rewrite drop_drop. f_equal. lia. Qed.

Lemma read_entry_agree pd pd' n st :
  drop 64 pd = drop 64 pd' ->
  NVSPage.read_entry pd n st = NVSPage.read_entry pd' n st.
Proof.
  intros H. unfold NVSPage.read_entry, NVSPage.read_value, slice, slice_from,
    NVSPage.ENTRY_SIZE.
  rewrite (drop_drop_le pd 64 ((n + 2) * 32)) by lia.
  rewrite (drop_drop_le pd 64 ((n + 2) * 32 + 32)) by lia.
  rewrite H.
  rewrite <- (drop_drop_le pd' 64 ((n + 2) * 32)) by lia.
  rewrite <- (drop_drop_le pd' 64 ((n + 2) * 32 + 32)) by lia.
  reflexivity.
Qed.

Lemma walk_agree pd pd' states :
  drop 64 pd = drop 64 pd' ->
  forall fuel n acc w,
    NVSPage.walk fuel pd states n acc w = NVSPage.walk fuel pd' states n acc w.
Proof.
  intros H. induction fuel as [| fuel IH]; intros n acc w; [reflexivity |].
  rewrite !walk_S. destruct (Nat.ltb _ _); [| reflexivity].
  destruct (states !! n) as [st |]; [| reflexivity].
  destruct (negb _); [| apply IH].
  unfold bind. rewrite (read_entry_agree pd pd' n st H).
  destruct (NVSPage.read_entry pd' n st w) as [[e | x |] w1]; auto.
Qed.

Lemma page_crc_ignored fuel (h c d rest : bytes) w :
  length h = 28%nat -> length c = 4%nat -> length d = 4%nat ->
  NVSPage.init fuel (h ++ c ++ rest) w
  = on_ok (fun p => set_page_crc p (uint_le c))
      (NVSPage.init fuel (h ++ d ++ rest) w).
Proof.
  intros Hh Hc Hd.
  assert (Hhdr : forall x : bytes, length x = 4%nat ->
            slice 0 32 (h ++ x ++ rest) = h ++ x /\
            slice 32 64 (h ++ x ++ rest) = take 32 rest /\
            drop 64 (h ++ x ++ rest) = drop 32 rest /\
            slice 28 32 (h ++ x) = x /\
            forall a b, (b <= 28)%nat -> slice a b (h ++ x) = slice a b h).
  { intros x Hx. rewrite !app_assoc. unfold slice. repeat split.
    - rewrite drop_0. apply take_app_length'. rewrite length_app. lia.
    - rewrite drop_app_length' by (rewrite length_app; lia). reflexivity.
    - replace 64%nat with (length (h ++ x) + 32)%nat by (rewrite length_app; lia).
      apply drop_app_add.
    - rewrite drop_app_length' by lia. apply take_ge. lia.
    - intros a b Hb. apply slice_app_l. lia. }
  destruct (Hhdr c Hc) as (Hc1 & Hc2 & Hc3 & Hc4 & Hc5).
  destruct (Hhdr d Hd) as (Hd1 & Hd2 & Hd3 & Hd4 & Hd5).
  unfold NVSPage.init, bind, unpack, on_ok.
  rewrite Hc1, Hd1, Hc2, Hd2, !length_app, Hh, Hc, Hd. cbn [Nat.add Nat.eqb ret fst snd].
  rewrite Hc4, !Hc5, !Hd5 by lia.
  destruct (NVSPage.is_active_or_full _); [| reflexivity].
  destruct (Nat.eqb _ _); [| reflexivity]. cbn [ret fst snd].
  rewrite (walk_agree (h ++ c ++ rest) (h ++ d ++ rest)) by congruence.
  destruct (NVSPage.walk _ _ _ _ _ _) as [[es | x |] w1]; reflexivity.
Qed.

Lemma extract_warnings fuel imageData pw pe w :
  warnings (extractNVSEntries fuel imageData pw pe w).2 = warnings w.
Proof.
  destruct (extract_spec fuel imageData pw pe) as (r & ups & _ & He).
  rewrite He. destruct r; reflexivity.
Qed.

(** C4 (amended): the decoder reads the stored CRC32 fields and keeps them in
    the [crc] attributes, and does nothing else with them; no checksum is
    computed or compared.  The program never issues a warning, whatever the
    image holds; two slots that differ only in their CRC field decode to
    entries that differ only in [crc], with the same effects, and likewise
    two pages that differ only in the CRC field of their header. *)
Theorem C4_crc_never_checked :
  (forall fuel imageData pw pe w,
     warnings (extractNVSEntries fuel imageData pw pe w).2 = warnings w) /\
  (forall b0 b1 b2 b3 c0 c1 c2 c3 d0 d1 d2 d3 rest st w,
     NVSEntry.init (b0 :: b1 :: b2 :: b3 :: c0 :: c1 :: c2 :: c3 :: rest) st w
     = on_ok (fun e => set_crc e (uint_le [c0; c1; c2; c3]))
         (NVSEntry.init (b0 :: b1 :: b2 :: b3 :: d0 :: d1 :: d2 :: d3 :: rest) st w)) /\
  (forall fuel (h c d rest : bytes) w,
     length h = 28%nat -> length c = 4%nat -> length d = 4%nat ->
     NVSPage.init fuel (h ++ c ++ rest) w
     = on_ok (fun p => set_page_crc p (uint_le c))
         (NVSPage.init fuel (h ++ d ++ rest) w)).
Proof.
  split; [exact extract_warnings |].
  split; [exact entry_crc_ignored | exact page_crc_ignored].
Qed.

Lemma C4_crc_never_checked_witness :
  let h := take 28 page_seq2 in
  let c := slice 28 32 page_seq2 in
  let d := [B 0x12; B 0x34; B 0x56; B 0x78] in
  let rest := drop 32 page_seq2 in
  (length h = 28%nat /\ length c = 4%nat /\ length d = 4%nat) /\
  NVSPage.init 127 (h ++ c ++ rest) world0
  = on_ok (fun p => set_page_crc p (uint_le c))
      (NVSPage.init 127 (h ++ d ++ rest) world0).
Proof.
  cbv zeta. split; [repeat split; vm_compute; reflexivity |].
  apply (proj2 (proj2 C4_crc_never_checked)); vm_compute; reflexivity.
Defined.

(** C4, as stated, fails: the CRC fields of [zero_crc_page] hold 0, which is
    not the CRC32 of the bytes they cover (bytes 4 to 28 of the header; for
    slot 0, the slot without its CRC field, its first 24 bytes without the
    CRC field, or its first 24 bytes); the run ends normally, reports the
    value and issues no warning. *)
Lemma C4_crc_mismatch_not_reported :
  let r := extractNVSEntries 127 zero_crc_page true false world0 in
  uint_le (slice 28 32 zero_crc_page) <> crc32 (slice 4 28 zero_crc_page) /\
  uint_le (slice 68 72 zero_crc_page)
    <> crc32 (slice 64 68 zero_crc_page ++ slice 72 96 zero_crc_page) /\
  uint_le (slice 68 72 zero_crc_page)
    <> crc32 (slice 64 68 zero_crc_page ++ slice 72 88 zero_crc_page) /\
  uint_le (slice 68 72 zero_crc_page) <> crc32 (slice 64 88 zero_crc_page) /\
  r.1 = Ok tt /\
  warnings r.2 = [] /\
  csv r.2 = [ csv_header; "Written,uint8_t,1,Namespace,wifi,1" +:+ newline ].
Proof.
  cbv zeta. repeat split; try (vm_compute; reflexivity);
    vm_compute; intros H; discriminate H.
Qed.

(** ** Fuel

    Once a run has enough fuel to end, more fuel does not change it. *)

Lemma walk_fuel_mono pageData states :
  forall fuel fuel' n acc w,
    (fuel <= fuel')%nat ->
    (NVSPage.walk fuel pageData states n acc w).1 <> OutOfFuel ->
    NVSPage.walk fuel' pageData states n acc w
    = NVSPage.walk fuel pageData states n acc w.
Proof.
  induction fuel as [| fuel IH]; intros fuel' n acc w Hle Hne;
    [exfalso; apply Hne; reflexivity |].
  destruct fuel' as [| fuel']; [lia |].
  rewrite !walk_S in *. destruct (Nat.ltb _ _); [| reflexivity].
  destruct (states !! n) as [st |]; [| reflexivity].
  destruct (negb _).
  - unfold bind in *.
    destruct (NVSPage.read_entry pageData n st w) as [[e | x |] w1];
      try reflexivity.
    apply IH; [lia | exact Hne].
  - apply IH; [lia | exact Hne].
Qed.

Lemma page_init_fuel_mono fuel fuel' pageData w :
  (fuel <= fuel')%nat ->
  (NVSPage.init fuel pageData w).1 <> OutOfFuel ->
  NVSPage.init fuel' pageData w = NVSPage.init fuel pageData w.
Proof.
  intros Hle. unfold NVSPage.init, bind.
  destruct (unpack 32 (slice 0 32 pageData) w) as [[hdr | x |] w1]; try reflexivity.
  destruct (NVSPage.is_active_or_full _); [| reflexivity].
  destruct (unpack 32 (slice 32 64 pageData) w1) as [[bm | x |] w2]; try reflexivity.
  intros Hne.
  rewrite (walk_fuel_mono pageData _ fuel fuel' 0%nat [] w2 Hle); [reflexivity |].
  destruct (NVSPage.walk fuel _ _ _ _ _) as [[es | x |] w3]; cbn [fst] in *;
    congruence.
Qed.

Lemma read_pages_fuel_mono fuel fuel' imageData :
  (fuel <= fuel')%nat ->
  forall addrs pages w,
    (read_pages fuel imageData addrs pages w).1 <> OutOfFuel ->
    read_pages fuel' imageData addrs pages w
    = read_pages fuel imageData addrs pages w.
Proof.
  intros Hle. induction addrs as [| a addrs IH]; intros pages w Hne;
    [reflexivity |].
  cbn [read_pages] in *. unfold bind in *.
  rewrite (page_init_fuel_mono fuel fuel' _ w Hle).
  - destruct (NVSPage.init fuel _ w) as [[p | x |] w1]; try reflexivity.
    apply IH, Hne.
  - destruct (NVSPage.init fuel _ w) as [[p | x |] w1]; cbn [fst] in *;
      congruence.
Qed.

Lemma extract_fuel_mono fuel fuel' imageData pw pe w :
  (fuel <= fuel')%nat ->
  (extractNVSEntries fuel imageData pw pe w).1 <> OutOfFuel ->
  extractNVSEntries fuel' imageData pw pe w
  = extractNVSEntries fuel imageData pw pe w.
Proof.
  intros Hle. unfold extractNVSEntries, scan. unfold bind at 1 2 5 6.
  intros Hne.
  rewrite (read_pages_fuel_mono fuel fuel' imageData Hle); [reflexivity |].
  destruct (read_pages fuel imageData _ [] w) as [[ps | x |] w1]; cbn [fst] in *;
    congruence.
Qed.

(** C10, as stated, fails: the output is not a function of the buffer
    alone.  The namespace table is a class attribute, and what one scan
    leaves in it is seen by the next.  In a fresh interpreter the image
    [page_seq2] refers to a namespace nothing defines and the run ends with
    [KeyError] after the header; decoded again in the same process after a
    scan of [page_seq5], the same image gives two lines. *)
Lemma C10_same_buffer_two_outputs :
  let first := extractNVSEntries 127 page_seq2 true false world0 in
  let other := extractNVSEntries 127 page_seq5 true false first.2 in
  let second := extractNVSEntries 127 page_seq2 true false other.2 in
  first.1 = Raise KeyError /\
  csv first.2 = [csv_header] /\
  second.1 = Ok tt /\
  csv second.2 =
  [ csv_header;
    "Written,uint8_t,1,wifi,chan,6" +:+ newline;
    "Written,int32_t,4,wifi,rssi,-70" +:+ newline ] /\
  csv first.2 <> csv second.2.
Proof.
  cbv zeta. repeat split; try (vm_compute; reflexivity).
  vm_compute. discriminate.
Qed.

Lemma C10_rescan_same_output_witness :
  let w2 := MkWorld (namespaces world0) ["an earlier warning"] (csv world0)
                    (locale world0) in
  (namespaces world0 = namespaces w2 /\ locale world0 = locale w2 /\
   csv world0 = csv w2) /\
  let r1 := extractNVSEntries 127 two_pages true false world0 in
  let r2 := extractNVSEntries 127 two_pages true false w2 in
  r1.1 = r2.1 /\ csv r1.2 = csv r2.2 /\ namespaces r1.2 = namespaces r2.2.
Proof.
  cbv zeta. split; [repeat split; reflexivity |].
  apply (proj2 (C10_rescan_same_output 127%nat two_pages true false));
    reflexivity.
Defined.

(** * Further properties of the decoder *)

(** ** Integers read from the image *)

Lemma byte_val_bounds b : 0 <= byte_val b < 256.
Proof.
  unfold byte_val. pose proof (Byte.to_N_bounded b). lia.
Qed.

Lemma uint_le_bounds bs : 0 <= uint_le bs < 256 ^ Z.of_nat (length bs).
Proof.
  induction bs as [| b bs IH]; [simpl; lia |].
  cbn [uint_le length]. rewrite Nat2Z.inj_succ, Z.pow_succ_r by lia.
  pose proof (byte_val_bounds b). lia.
Qed.

Lemma sint_le_bounds bs :
  (0 < length bs)%nat ->
  - 2 ^ (8 * Z.of_nat (length bs) - 1) <= sint_le bs
  < 2 ^ (8 * Z.of_nat (length bs) - 1).
Proof.
  intros Hlen. unfold sint_le. pose proof (uint_le_bounds bs) as Hb.
  assert (Hp : 256 ^ Z.of_nat (length bs) = 2 ^ (8 * Z.of_nat (length bs))).
  { change 256 with (2 ^ 8). rewrite <- Z.pow_mul_r by lia. reflexivity. }
  assert (Hh : 2 ^ (8 * Z.of_nat (length bs))
               = 2 * 2 ^ (8 * Z.of_nat (length bs) - 1)).
  { rewrite <- Z.pow_succ_r by lia. f_equal. lia. }
  rewrite Hp in Hb. destruct (Z.ltb_spec (uint_le bs)
    (2 ^ (8 * Z.of_nat (length bs) - 1))); lia.
Qed.

(** ** The liveness bitmap *)

Lemma unpack_states_length bm :
  length (NVSPage.unpack_states bm) = (4 * length bm)%nat.
Proof.
  unfold NVSPage.unpack_states. induction bm as [| b bm IH]; [reflexivity |].
  cbn [flat_map]. rewrite length_app, IH. cbn [length NVSPage.states_of_byte]. lia.
Qed.

(** X1: slot [i] takes its state from bits [2 (i mod 4)] and
    [2 (i mod 4) + 1] of byte [i / 4] of the bitmap: four slots to a byte,
    the low pair first. *)
Theorem bitmap_slot_state (bm : bytes) (i : nat) :
  NVSPage.unpack_states bm !! i
  = (fun b => Z.land (Z.shiftr (byte_val b) (2 * Z.of_nat (i mod 4))) 3)
      <$> bm !! (i / 4)%nat.
Proof.
  revert i. induction bm as [| b bm IH]; intros i; [reflexivity |].
  unfold NVSPage.unpack_states in *. cbn [flat_map NVSPage.states_of_byte].
  destruct i as [| [| [| [| i]]]]; try reflexivity.
  replace (S (S (S (S i)))) with (i + 1 * 4)%nat by lia.
  rewrite Nat.div_add, Nat.Div0.mod_add by lia.
  replace (i + 1 * 4)%nat with (S (S (S (S i)))) by lia.
  replace (i `div` 4 + 1)%nat with (S (i `div` 4)) by lia.
  cbn [app]. rewrite !lookup_cons. apply IH.
Qed.

Lemma unpack_states_range bm :
  Forall (fun s => 0 <= s <= 3) (NVSPage.unpack_states bm).
Proof.
  unfold NVSPage.unpack_states. induction bm as [| b bm IH]; [constructor |].
  cbn [flat_map]. apply Forall_app. split; [| exact IH].
  assert (H : forall a, 0 <= Z.land a 3 <= 3).
  { intros a. assert (Hm : Z.land a 3 = a mod 4).
    { change 3 with (Z.ones 2). rewrite Z.land_ones by lia. reflexivity. }
    rewrite Hm. pose proof (Z.mod_pos_bound a 4 ltac:(lia)). lia. }
  unfold NVSPage.states_of_byte. repeat constructor; apply H.
Qed.

Lemma slice_length_le a b (l : bytes) : (length (slice a b l) <= b - a)%nat.
Proof. unfold slice. rewrite length_take. lia. Qed.

Lemma uint_le_lt (k : nat) bs :
  (length bs <= k)%nat -> 0 <= uint_le bs < 256 ^ Z.of_nat k.
Proof.
  intros Hk. pose proof (uint_le_bounds bs) as Hb.
  assert (256 ^ Z.of_nat (length bs) <= 256 ^ Z.of_nat k)
    by (apply Z.pow_le_mono_r; lia).
  lia.
Qed.

Lemma uint_le_slice_lt a b (l : bytes) :
  0 <= uint_le (slice a b l) < 256 ^ Z.of_nat (b - a).
Proof. apply uint_le_lt, slice_length_le. Qed.

(** ** Values and sizes of decoded entries *)

(** The range of the value and the size that go with a type tag. *)
Lemma read_data_range d data w sz v dc w' :
  NVSEntry.read_data d data w = (Ok (sz, v, dc), w') ->
  w' = w /\
  match d with
  | NVSDataType.uint8_t => sz = 1 /\ exists n, v = VInt n /\ 0 <= n < 2 ^ 8
  | NVSDataType.uint16_t => sz = 2 /\ exists n, v = VInt n /\ 0 <= n < 2 ^ 16
  | NVSDataType.uint32_t => sz = 4 /\ exists n, v = VInt n /\ 0 <= n < 2 ^ 32
  | NVSDataType.uint64_t => sz = 8 /\ exists n, v = VInt n /\ 0 <= n < 2 ^ 64
  | NVSDataType.int8_t => sz = 1 /\ exists n, v = VInt n /\ - 2 ^ 7 <= n < 2 ^ 7
  | NVSDataType.int16_t => sz = 2 /\ exists n, v = VInt n /\ - 2 ^ 15 <= n < 2 ^ 15
  | NVSDataType.int32_t => sz = 4 /\ exists n, v = VInt n /\ - 2 ^ 31 <= n < 2 ^ 31
  | NVSDataType.int64_t => sz = 8 /\ exists n, v = VInt n /\ - 2 ^ 63 <= n < 2 ^ 63
  | NVSDataType.string | NVSDataType.blob_data =>
      0 <= sz < 2 ^ 16 /\ v = VNone /\ 0 <= dc < 2 ^ 32
  | NVSDataType.blob_index =>
      0 <= sz < 2 ^ 32 /\ exists n, v = VInt n /\ 0 <= n < 2 ^ 16
  end.
Proof.
  intros H.
  destruct d; cbn [NVSEntry.read_data] in H;
    apply bind_ok_inv in H as (raw & w1 & Hu & H);
    apply unpack_ok in Hu as (-> & -> & Hlen);
    injection H as <- <- <- <-; (split; [reflexivity |]).
  1-4: split; [reflexivity |]; eexists; split; [reflexivity |];
       match type of Hlen with
       | length ?x = _ => pose proof (uint_le_bounds x) as Hb
       end; rewrite Hlen in Hb; exact Hb.
  1-4: split; [reflexivity |]; eexists; split; [reflexivity |];
       match type of Hlen with
       | length ?x = _ =>
           pose proof (sint_le_bounds x ltac:(rewrite Hlen; lia)) as Hb
       end; rewrite Hlen in Hb; exact Hb.
  - split; [apply (uint_le_slice_lt 0 2) |].
    split; [reflexivity | apply (uint_le_slice_lt 4 8)].
  - split; [apply (uint_le_slice_lt 0 2) |].
    split; [reflexivity | apply (uint_le_slice_lt 4 8)].
  - split; [apply (uint_le_slice_lt 0 4) |].
    eexists; split; [reflexivity | apply (uint_le_slice_lt 4 6)].
Qed.

Lemma decode_utf8_ok bs w k w' :
  decode_utf8 bs w = (Ok k, w') ->
  w' = w /\ utf8_valid bs = true /\ k = string_of_list_byte bs.
Proof.
  unfold decode_utf8. destruct (utf8_valid bs); [| discriminate].
  intros [= <- <-]. auto.
Qed.

(** What a successful [NVSEntry.init] has read and done. *)
Lemma entry_init_inv entryData st w e w' :
  NVSEntry.init entryData st w = (Ok e, w') ->
  let hdr := slice 0 24 entryData in
  let ns := uint_le (slice 0 1 hdr) in
  let k := string_of_list_byte (rstrip0 (slice 8 24 hdr)) in
  length hdr = 24%nat /\
  NVSDataType.to_int (NVSEntry.datatype e) = uint_le (slice 1 2 hdr) /\
  utf8_valid (rstrip0 (slice 8 24 hdr)) = true /\
  if negb (st =? NVSEntryState.to_int NVSEntryState.Empty) then
    exists sz v dc,
      NVSEntry.read_data (NVSEntry.datatype e) (slice 24 32 entryData) w
      = (Ok (sz, v, dc), w) /\
      e = NVSEntry.Make ns (NVSEntry.datatype e) (uint_le (slice 2 3 hdr))
            (uint_le (slice 3 4 hdr)) (uint_le (slice 4 8 hdr)) dc sz k v st /\
      w' = (if ns =? 0 then (ns_update v k w).2 else w)
  else
    e = NVSEntry.Make ns (NVSEntry.datatype e) (uint_le (slice 2 3 hdr))
          (uint_le (slice 3 4 hdr)) (uint_le (slice 4 8 hdr)) 0 0 k VNone st /\
    w' = w.
Proof.
  unfold NVSEntry.init. intros H. cbv zeta.
  apply bind_ok_inv in H as (hdr & w1 & Hh & H).
  apply unpack_ok in Hh as (-> & -> & Hlen).
  apply bind_ok_inv in H as (d & w2 & Hd & H).
  apply datatype_of_int_ok in Hd as [-> Htag].
  apply bind_ok_inv in H as (k & w3 & Hk & H).
  apply decode_utf8_ok in Hk as (-> & Hv & ->).
  destruct (negb _).
  - apply bind_ok_inv in H as ([[sz v] dc] & w4 & Hr & H).
    pose proof (read_data_range _ _ _ _ _ _ _ Hr) as [-> _].
    apply bind_ok_inv in H as (u & w5 & Hu & H).
    injection H as <- <-. cbn [NVSEntry.datatype].
    repeat split; auto. exists sz, v, dc. repeat split; auto.
    destruct (_ =? 0); [| injection Hu as _ <-; reflexivity].
    rewrite Hu. reflexivity.
  - injection H as <- <-. cbn [NVSEntry.datatype]. auto.
Qed.

(** X2: the fields of a decoded entry are within the ranges of their
    encodings: namespace, span and chunk index are bytes, the CRC is a
    32-bit word, the state is the one passed in; for a non-empty slot the
    size and the value are those of the type tag (a scalar within the range
    of its width, no value yet for a string or a blob, whose size is a
    16-bit word), and for an Empty slot there is no value and no size. *)
Theorem entry_init_ranges entryData st w e w' :
  NVSEntry.init entryData st w = (Ok e, w') ->
  0 <= NVSEntry.ns e < 256 /\
  0 <= NVSEntry.span e < 256 /\
  0 <= NVSEntry.chunkIndex e < 256 /\
  0 <= NVSEntry.crc e < 2 ^ 32 /\
  NVSEntry.state e = st /\
  (st = NVSEntryState.to_int NVSEntryState.Empty ->
     NVSEntry.size e = 0 /\ NVSEntry.value e = VNone /\ NVSEntry.dataCrc e = 0) /\
  (st <> NVSEntryState.to_int NVSEntryState.Empty ->
     let sz := NVSEntry.size e in
     let v := NVSEntry.value e in
     match NVSEntry.datatype e with
     | NVSDataType.uint8_t => sz = 1 /\ exists n, v = VInt n /\ 0 <= n < 2 ^ 8
     | NVSDataType.uint16_t => sz = 2 /\ exists n, v = VInt n /\ 0 <= n < 2 ^ 16
     | NVSDataType.uint32_t => sz = 4 /\ exists n, v = VInt n /\ 0 <= n < 2 ^ 32
     | NVSDataType.uint64_t => sz = 8 /\ exists n, v = VInt n /\ 0 <= n < 2 ^ 64
     | NVSDataType.int8_t => sz = 1 /\ exists n, v = VInt n /\ - 2 ^ 7 <= n < 2 ^ 7
     | NVSDataType.int16_t => sz = 2 /\ exists n, v = VInt n /\ - 2 ^ 15 <= n < 2 ^ 15
     | NVSDataType.int32_t => sz = 4 /\ exists n, v = VInt n /\ - 2 ^ 31 <= n < 2 ^ 31
     | NVSDataType.int64_t => sz = 8 /\ exists n, v = VInt n /\ - 2 ^ 63 <= n < 2 ^ 63
     | NVSDataType.string | NVSDataType.blob_data =>
         0 <= sz < 2 ^ 16 /\ v = VNone /\ 0 <= NVSEntry.dataCrc e < 2 ^ 32
     | NVSDataType.blob_index =>
         0 <= sz < 2 ^ 32 /\ exists n, v = VInt n /\ 0 <= n < 2 ^ 16
     end).
Proof.
  intros H. apply entry_init_inv in H. cbv zeta in H.
  destruct H as (_ & _ & _ & H).
  destruct (Z.eqb_spec st (NVSEntryState.to_int NVSEntryState.Empty)) as [Heq | Hne];
    cbn [negb] in H.
  - destruct H as [He _]. rewrite He. cbn.
    repeat split; try apply (uint_le_slice_lt 0 1); try apply (uint_le_slice_lt 2 3);
      try apply (uint_le_slice_lt 3 4); try apply (uint_le_slice_lt 4 8);
      try contradiction.
  - destruct H as (sz & v & dc & Hr & He & _).
    apply read_data_range in Hr as [_ Hr].
    rewrite He. cbn [NVSEntry.ns NVSEntry.span NVSEntry.chunkIndex NVSEntry.crc
      NVSEntry.state NVSEntry.size NVSEntry.value NVSEntry.dataCrc NVSEntry.datatype].
    rewrite He in Hr. cbn [NVSEntry.datatype] in Hr.
    split; [apply (uint_le_slice_lt 0 1) |].
    split; [apply (uint_le_slice_lt 2 3) |].
    split; [apply (uint_le_slice_lt 3 4) |].
    split; [apply (uint_le_slice_lt 4 8) |].
    split; [reflexivity |].
    split; [intros; contradiction | intros _; exact Hr].
Qed.

(** ** The namespace table *)

Lemma bind_raise_inv {A B} (m : M A) (f : A -> M B) w x w' :
  bind m f w = (Raise x, w') ->
  m w = (Raise x, w') \/ exists a w1, m w = (Ok a, w1) /\ f a w1 = (Raise x, w').
Proof.
  unfold bind. destruct (m w) as [[a | e |] w1]; try discriminate.
  - intros H. right. exists a, w1. auto.
  - intros [= <- <-]. left. reflexivity.
Qed.

Lemma entry_init_raise_world entryData st w x w' :
  NVSEntry.init entryData st w = (Raise x, w') -> w' = w.
Proof.
  unfold NVSEntry.init. intros H.
  apply bind_raise_inv in H as [H | (hdr & w1 & Hh & H)].
  { unfold unpack in H. destruct (Nat.eqb _ _); [discriminate |].
    injection H as _ <-. reflexivity. }
  apply unpack_ok in Hh as (-> & -> & _).
  apply bind_raise_inv in H as [H | (d & w2 & Hd & H)].
  { revert H. unfold NVSDataType.of_int, ret, raise.
    repeat match goal with
           | |- context [?n =? ?b] => destruct (n =? b); [cbv beta; discriminate |]
           end.
    cbv beta. intros [= _ <-]. reflexivity. }
  apply datatype_of_int_ok in Hd as [-> _].
  apply bind_raise_inv in H as [H | (k & w3 & Hk & H)].
  { unfold decode_utf8 in H. destruct (utf8_valid _); [discriminate |].
    injection H as _ <-. reflexivity. }
  apply decode_utf8_ok in Hk as (-> & _ & _).
  destruct (negb _); [| discriminate].
  apply bind_raise_inv in H as [H | ([[sz v] dc] & w4 & Hr & H)].
  { destruct d; cbn [NVSEntry.read_data] in H;
      (apply bind_raise_inv in H as [H | (raw & w5 & Hu & H)];
       [| discriminate]);
      unfold unpack in H; (destruct (Nat.eqb _ _); [discriminate |]);
      injection H as _ <-; reflexivity. }
  apply bind_raise_inv in H as [H | (u & w5 & _ & H)]; [| discriminate].
  destruct (_ =? 0); discriminate.
Qed.

Lemma entry_init_world entryData st w :
  match NVSEntry.init entryData st w with
  | (Ok e, w') =>
      warnings w' = warnings w /\ csv w' = csv w /\
      namespaces w' =
        if (NVSEntry.ns e =? 0)
           && negb (st =? NVSEntryState.to_int NVSEntryState.Empty)
        then <[NVSEntry.value e := NVSEntry.key e]> (namespaces w)
        else namespaces w
  | (_, w') => w' = w
  end.
Proof.
  destruct (NVSEntry.init entryData st w) as [[e | x |] w'] eqn:H.
  - apply entry_init_inv in H. cbv zeta in H. destruct H as (_ & _ & _ & H).
    destruct (negb _).
    + destruct H as (sz & v & dc & _ & -> & ->).
      cbn [NVSEntry.ns NVSEntry.value NVSEntry.key].
      destruct (_ =? 0); cbn [andb]; auto.
    + destruct H as [-> ->]. rewrite andb_false_r. auto.
  - eapply entry_init_raise_world, H.
  - pose proof (returns_entry_init entryData st w) as Hr. rewrite H in Hr.
    exfalso. apply Hr. reflexivity.
Qed.

(** X3: the only effect of [NVSEntry.init] is on the namespace table, and
    only for a non-empty slot in namespace 0: the table then binds the
    entry's value (as it stands after [init]: [None] for a string or a blob)
    to the entry's key, replacing any earlier binding.  Warnings and the
    output file are untouched, and an [init] that raises changes nothing. *)
Theorem entry_init_effect entryData st w :
  match NVSEntry.init entryData st w with
  | (Ok e, w') =>
      warnings w' = warnings w /\ csv w' = csv w /\
      namespaces w' =
        if (NVSEntry.ns e =? 0)
           && negb (st =? NVSEntryState.to_int NVSEntryState.Empty)
        then <[NVSEntry.value e := NVSEntry.key e]> (namespaces w)
        else namespaces w
  | (_, w') => w' = w
  end.
Proof. apply entry_init_world. Qed.

Lemma str_selected pw pe e w :
  selected pw pe e = true ->
  NVSEntry.str e w =
  (match namespaces w !! VInt (NVSEntry.ns e) with
   | Some name =>
       Ok ((if NVSEntry.state e =? 0 then "Erased" else "Written") +:+ ","
           +:+ NVSDataType.name (NVSEntry.datatype e) +:+ ","
           +:+ str_int (NVSEntry.size e) +:+ "," +:+ name +:+ ","
           +:+ NVSEntry.key e +:+ "," +:+ str_value (NVSEntry.value e))
   | None => Raise KeyError
   end, w).
Proof.
  unfold selected. intros Hsel.
  assert (Hst : NVSEntry.state e = 2 \/ NVSEntry.state e = 0).
  { apply orb_prop in Hsel as [H | H]; apply andb_prop in H as [_ H];
      apply Z.eqb_eq in H; [left | right]; exact H. }
  unfold NVSEntry.str, bind, NVSEntryState.of_int, ns_lookup, ret.
  destruct Hst as [-> | ->]; simpl; destruct (namespaces w !! _); reflexivity.
Qed.

Lemma read_value_inv pageData addr e0 w e w' :
  NVSPage.read_value pageData addr e0 w = (Ok e, w') ->
  w' = w /\ NVSEntry.ns e = NVSEntry.ns e0 /\ NVSEntry.key e = NVSEntry.key e0 /\
  NVSEntry.datatype e = NVSEntry.datatype e0 /\
  (NVSEntry.datatype e0 <> NVSDataType.string ->
   NVSEntry.datatype e0 <> NVSDataType.blob_data -> e = e0).
Proof.
  unfold NVSPage.read_value. intros H.
  destruct (decide (NVSEntry.datatype e0 = NVSDataType.string)) as [Hs | Hs].
  - unfold NVSEntry.readStrValue in H.
    destruct (decide _) as [_ | Hn]; [| contradiction].
    apply bind_ok_inv in H as (raw & w1 & Hu & H).
    apply unpack_ok in Hu as (_ & -> & _).
    apply bind_ok_inv in H as (s & w2 & Hd & H).
    apply decode_utf8_ok in Hd as (-> & _ & _).
    injection H as <- <-. simpl. repeat split; auto. intros; contradiction.
  - destruct (decide (NVSEntry.datatype e0 = NVSDataType.blob_data)) as [Hb | Hb].
    + unfold NVSEntry.readBlobValue in H.
      destruct (decide _) as [_ | Hn]; [| contradiction].
      injection H as <- <-. simpl. repeat split; auto. intros; contradiction.
    + injection H as <- <-. auto.
Qed.

(** The decoding of a non-empty slot registers its entry. *)
Lemma read_entry_namespaces pageData n st w e w' :
  NVSPage.read_entry pageData n st w = (Ok e, w') ->
  st <> NVSEntryState.to_int NVSEntryState.Empty ->
  namespaces w' = register (namespaces w) e.
Proof.
  unfold NVSPage.read_entry. intros H Hst.
  apply bind_ok_inv in H as (e0 & w1 & H0 & H).
  apply read_value_inv in H as (-> & Hns & Hk & Hd & Hsame).
  apply entry_init_inv in H0. cbv zeta in H0. destruct H0 as (_ & _ & _ & H0).
  apply Z.eqb_neq in Hst. rewrite Hst in H0. cbn [negb] in H0.
  destruct H0 as (sz & v & dc & Hr & He0 & ->).
  assert (Hns0 : NVSEntry.ns e0 = uint_le (slice 0 1 (slice 0 24
            (slice ((n + 2) * NVSPage.ENTRY_SIZE)
                   ((n + 2) * NVSPage.ENTRY_SIZE + NVSPage.ENTRY_SIZE) pageData))))
    by (rewrite He0; reflexivity).
  assert (Hk0 : NVSEntry.key e0 = string_of_list_byte (rstrip0 (slice 8 24 (slice 0 24
            (slice ((n + 2) * NVSPage.ENTRY_SIZE)
                   ((n + 2) * NVSPage.ENTRY_SIZE + NVSPage.ENTRY_SIZE) pageData)))))
    by (rewrite He0; reflexivity).
  assert (Hv0 : NVSEntry.value e0 = v) by (rewrite He0; reflexivity).
  assert (Hv : registered_key e = v).
  { unfold registered_key. rewrite Hd.
    destruct (NVSEntry.datatype e0) eqn:Hdt;
      try (rewrite (Hsame ltac:(discriminate) ltac:(discriminate)); exact Hv0);
      cbn [NVSEntry.read_data] in Hr;
      apply bind_ok_inv in Hr as (raw & w2 & _ & Hr);
      injection Hr as _ <- _; reflexivity. }
  unfold register. rewrite Hv, Hns, Hk, Hns0, Hk0.
  destruct (_ =? 0); reflexivity.
Qed.

(** A walk that returns has registered, in order, the entries it appended. *)
Lemma walk_namespaces pageData states fuel :
  forall n acc w es w',
    NVSPage.walk fuel pageData states n acc w = (Ok es, w') ->
    exists new,
      es = acc ++ new /\ namespaces w' = foldl register (namespaces w) new.
Proof.
  induction fuel as [| fuel IH]; intros n acc w es w' H; [discriminate |].
  rewrite walk_S in H.
  destruct (Nat.ltb n NVSPage.NUM_ENTRIES).
  2:{ injection H as <- <-. exists []. rewrite app_nil_r. auto. }
  destruct (states !! n) as [st |]; [| discriminate].
  destruct (Z.eqb_spec st (NVSEntryState.to_int NVSEntryState.Empty)) as [Heq | Hne];
    cbn [negb] in H.
  - apply IH in H. exact H.
  - apply bind_ok_inv in H as (e & w1 & He & H).
    apply IH in H as (new & -> & HN).
    exists (e :: new). rewrite <- app_assoc. split; [reflexivity |].
    cbn [foldl]. rewrite HN, (read_entry_namespaces _ _ _ _ _ _ He Hne). reflexivity.
Qed.

Lemma page_init_namespaces fuel pageData w p w' :
  NVSPage.init fuel pageData w = (Ok p, w') ->
  namespaces w' = foldl register (namespaces w) (NVSPage.entries p).
Proof.
  unfold NVSPage.init. intros H.
  apply bind_ok_inv in H as (hdr & w1 & Hh & H).
  apply unpack_ok in Hh as (_ & -> & _).
  destruct (NVSPage.is_active_or_full _).
  - apply bind_ok_inv in H as (bm & w2 & Hb & H).
    apply unpack_ok in Hb as (_ & -> & _).
    apply bind_ok_inv in H as (es & w3 & Hw & H).
    injection H as <- <-. cbn [NVSPage.entries].
    apply walk_namespaces in Hw as (new & -> & HN). exact HN.
  - injection H as <- <-. reflexivity.
Qed.

(** The pages of a scan and the table it leaves, in terms of the image. *)
Lemma read_slices_namespaces fuel :
  forall slices acc w pages w',
    read_slices fuel slices acc w = (Ok pages, w') ->
    exists all,
      Forall2 (decodes_to fuel) slices all /\ pages = acc ++ kept_pages all /\
      namespaces w' = foldl register (namespaces w) (flat_map NVSPage.entries all).
Proof.
  induction slices as [| d slices IH]; intros acc w pages w' H.
  - injection H as <- <-. exists []. rewrite app_nil_r.
    split; [constructor | split; reflexivity].
  - cbn [read_slices] in H. unfold bind in H.
    destruct (NVSPage.init fuel d w) as [[p | |] w1] eqn:Hp; try discriminate.
    apply IH in H as (all & Hall & -> & HN).
    exists (p :: all). split; [| split].
    + constructor; [| exact Hall]. split.
      * intros w0. rewrite (write_only_outcome _ w0 w (write_only_page_init fuel d)).
        rewrite Hp. reflexivity.
      * eapply page_init_slot_ordered, Hp.
    + unfold kept_pages. cbn [List.filter].
      destruct (NVSPage.is_active_or_full (NVSPage.state p));
        [rewrite <- app_assoc |]; reflexivity.
    + cbn [flat_map]. rewrite foldl_app, HN, (page_init_namespaces _ _ _ _ _ Hp).
      reflexivity.
Qed.

Lemma register_other N k :
  forall es,
    (forall x, x ∈ es -> NVSEntry.ns x = 0 -> registered_key x <> k) ->
    foldl register N es !! k = N !! k.
Proof.
  intros es. revert N. induction es as [| x es IH]; intros N H; [reflexivity |].
  cbn [foldl]. rewrite IH.
  - unfold register. destruct (Z.eqb_spec (NVSEntry.ns x) 0) as [Hz | Hz]; [| reflexivity].
    apply lookup_insert_ne. apply H; [left | exact Hz].
  - intros y Hy. apply H. right. exact Hy.
Qed.

Lemma register_last N es1 d es2 k :
  NVSEntry.ns d = 0 -> registered_key d = k ->
  (forall x, x ∈ es2 -> NVSEntry.ns x = 0 -> registered_key x <> k) ->
  foldl register N (es1 ++ d :: es2) !! k = Some (NVSEntry.key d).
Proof.
  intros Hns Hk Hes2. rewrite foldl_app. cbn [foldl].
  rewrite (register_other _ k es2 Hes2). unfold register.
  rewrite Hns, Hk. cbn [Z.eqb]. apply lookup_insert_eq.
Qed.

(** X4: the last definition wins.  A scan that returns leaves the namespace
    table obtained by registering, on top of the table it started from, the
    entries of all the pages of the image, in the order of the image (page
    by page, slot by slot, before any sorting); the write phase does not
    change that table, whatever its outcome.  So if [d] is the last entry of
    the image, in that order, that is in namespace 0 and registers the
    integer [n], every entry of namespace [n] that reaches the output, from
    whatever page and also one decoded before [d], is rendered with the key
    of [d] as its namespace name. *)
Theorem namespace_last_definition_wins fuel imageData w pages w1 :
  scan fuel imageData w = (Ok pages, w1) ->
  exists all : list NVSPage.t,
    Forall2 (decodes_to fuel) (page_slices imageData) all /\
    pages = sort_pages (kept_pages all) /\
    namespaces w1
    = foldl register (namespaces w) (flat_map NVSPage.entries all) /\
    (forall pw pe,
       namespaces (extractNVSEntries fuel imageData pw pe w).2 = namespaces w1) /\
    forall es1 d es2 n pw pe e,
      flat_map NVSPage.entries all = es1 ++ d :: es2 ->
      NVSEntry.ns d = 0 ->
      registered_key d = VInt n ->
      (forall x, x ∈ es2 -> NVSEntry.ns x = 0 -> registered_key x <> VInt n) ->
      selected pw pe e = true ->
      NVSEntry.ns e = n ->
      render (namespaces w1) e =
      Ok ((if NVSEntry.state e =? 0 then "Erased" else "Written") +:+ ","
          +:+ NVSDataType.name (NVSEntry.datatype e) +:+ ","
          +:+ str_int (NVSEntry.size e) +:+ "," +:+ NVSEntry.key d +:+ ","
          +:+ NVSEntry.key e +:+ "," +:+ str_value (NVSEntry.value e)).
Proof.
  intros Hscan. pose proof Hscan as H. unfold scan in H.
  apply bind_ok_inv in H as (ps & w2 & Hr & H). injection H as <- <-.
  rewrite read_pages_slices in Hr. fold (page_slices imageData) in Hr.
  apply read_slices_namespaces in Hr as (all & Hall & -> & HN). cbn [app] in *.
  exists all. split; [exact Hall |]. split; [reflexivity |]. split; [exact HN |].
  split.
  - intros pw pe. unfold extractNVSEntries. unfold bind at 1. rewrite Hscan.
    unfold bind, file_open_w, file_write. rewrite can_encode_header.
    rewrite write_pages_written. reflexivity.
  - intros es1 d es2 n pw pe e Hes Hns Hk Hes2 Hsel Hn.
    unfold render. rewrite (str_selected pw pe e _ Hsel).
    cbn [namespaces fst]. rewrite HN, Hes, Hn.
    rewrite (register_last _ es1 d es2 (VInt n) Hns Hk Hes2). reflexivity.
Qed.

(** ** Invariants of a decoded page *)

Lemma sorted_lt_length n :
  forall (l : list nat) lo,
    StronglySorted lt l -> Forall (fun x => (lo <= x < n)%nat) l ->
    (length l <= n - lo)%nat.
Proof.
  induction l as [| x l IH]; intros lo Hs Hf; [simpl; lia |].
  apply StronglySorted_inv in Hs as [Hs Hx].
  apply Forall_cons in Hf as [Hb Hf].
  assert (Hf' : Forall (fun y => (S x <= y < n)%nat) l).
  { rewrite Forall_forall in *. intros y Hy.
    specialize (Hx y Hy). specialize (Hf y Hy). simpl in *. lia. }
  specialize (IH (S x) Hs Hf'). simpl. lia.
Qed.

Lemma walk_spans pageData states fuel :
  forall n acc w es w',
    NVSPage.walk fuel pageData states n acc w = (Ok es, w') ->
    exists new, es = acc ++ new /\ Forall (fun e => 1 <= NVSEntry.span e) new.
Proof.
  induction fuel as [| fuel IH]; intros n acc w es w' H; [discriminate |].
  rewrite walk_S in H.
  destruct (Nat.ltb_spec n NVSPage.NUM_ENTRIES) as [Hn | Hn].
  2:{ injection H as <- <-. exists []. rewrite app_nil_r. split; constructor. }
  destruct (states !! n) as [st |] eqn:Hst; [| discriminate].
  destruct (Z.eqb_spec st (NVSEntryState.to_int NVSEntryState.Empty)) as [Heq | Hne];
    cbn [negb] in H.
  - apply IH in H. exact H.
  - unfold bind in H.
    destruct (NVSPage.read_entry pageData n st w) as [[e | x |] w1] eqn:He;
      try discriminate.
    destruct (Nat.eq_dec (Z.to_nat (NVSEntry.span e)) 0%nat) as [Hz | Hnz].
    + pose proof (walk_stuck pageData states n st e w Hn Hst Hne
                    ltac:(rewrite He; reflexivity) Hz fuel (acc ++ [e]) w1) as Hk.
      rewrite Hz, Nat.add_0_r in H. rewrite H in Hk. discriminate.
    + apply IH in H as (new & -> & Hf).
      exists (e :: new). rewrite <- app_assoc. split; [reflexivity |].
      constructor; [lia | exact Hf].
Qed.

(** X5: a page that decodes has at most 126 entries; each of them has a
    span between 1 and 255 and a state among 0 (Erased), 1 and 2 (Written),
    never Empty; a page whose state is neither Active nor Full has none. *)
Theorem page_entries_invariant fuel pageData w p w' :
  NVSPage.init fuel pageData w = (Ok p, w') ->
  (length (NVSPage.entries p) <= 126)%nat /\
  Forall (fun e => 1 <= NVSEntry.span e < 256 /\ 0 <= NVSEntry.state e <= 2)
         (NVSPage.entries p) /\
  (NVSPage.is_active_or_full (NVSPage.state p) = false -> NVSPage.entries p = []).
Proof.
  intros H.
  pose proof (page_init_slot_ordered _ _ _ _ _ H) as (tr & Htr & Hs & Hf).
  assert (Hspan : Forall (fun e => 1 <= NVSEntry.span e) (NVSPage.entries p) /\
                  (NVSPage.is_active_or_full (NVSPage.state p) = false ->
                   NVSPage.entries p = [])).
  { unfold NVSPage.init in H.
    apply bind_ok_inv in H as (hdr & w1 & _ & H).
    destruct (NVSPage.is_active_or_full _) eqn:Hact.
    - apply bind_ok_inv in H as (bm & w2 & _ & H).
      apply bind_ok_inv in H as (es & w3 & Hw & H).
      injection H as <- <-. cbn [NVSPage.entries NVSPage.state].
      apply walk_spans in Hw as (new & -> & Hn). rewrite Hact. split; [exact Hn | discriminate].
    - injection H as <- <-. cbn [NVSPage.entries]. split; [constructor | reflexivity]. }
  destruct Hspan as [Hspan Hinact].
  split; [| split; [| exact Hinact]].
  - rewrite Htr, length_map, <- (length_map fst).
    change 126%nat with (NVSPage.NUM_ENTRIES - 0)%nat.
    apply sorted_lt_length; [exact Hs |].
    apply Forall_map. eapply Forall_impl; [exact Hf |].
    simpl. intros se [Hb _]. lia.
  - rewrite Htr in Hspan |- *. rewrite Forall_map in Hspan |- *.
    rewrite Forall_forall in *. intros se Hin.
    specialize (Hspan se Hin). destruct (Hf se Hin) as [_ (st & w1 & w2 & Hst & Hne & He)].
    apply read_entry_fields in He as [Hsp Hstate]. simpl in *.
    split.
    + split; [exact Hspan |]. rewrite Hsp. unfold span_byte.
      apply (uint_le_slice_lt 2 3).
    + rewrite Hstate.
      pose proof (unpack_states_range (slice 32 64 pageData)) as Hr.
      rewrite Forall_forall in Hr.
      assert (Hin' : st ∈ NVSPage.unpack_states (slice 32 64 pageData))
        by (eapply list_elem_of_lookup_2; exact Hst).
      specialize (Hr st Hin'). unfold NVSEntryState.to_int in Hne. lia.
Qed.

(** ** Which exceptions the program raises *)

Lemma raises_only_ret {A} S (a : A) : raises_only S (ret a).
Proof. intros w x w' H. discriminate. Qed.

Lemma raises_only_raise {A} (S : exn -> Prop) e : S e -> raises_only S (@raise A e).
Proof. intros He w x w' [= <- _]. exact He. Qed.

Lemma raises_only_bind {A B} S (m : M A) (f : A -> M B) :
  raises_only S m -> (forall a, raises_only S (f a)) -> raises_only S (bind m f).
Proof.
  intros Hm Hf w x w' H. apply bind_raise_inv in H as [H | (a & w1 & _ & H)].
  - eapply Hm, H.
  - eapply Hf, H.
Qed.

Lemma raises_only_unpack n data : raises_only decode_exn (unpack n data).
Proof.
  unfold unpack. destruct (Nat.eqb _ _);
    [apply raises_only_ret | apply raises_only_raise; left; reflexivity].
Qed.

Lemma raises_only_decode_utf8 bs : raises_only decode_exn (decode_utf8 bs).
Proof.
  unfold decode_utf8. destruct (utf8_valid bs);
    [apply raises_only_ret | apply raises_only_raise; right; right; reflexivity].
Qed.

Lemma raises_only_datatype_of_int n : raises_only decode_exn (NVSDataType.of_int n).
Proof.
  unfold NVSDataType.of_int.
  repeat (destruct (_ =? _); [apply raises_only_ret |]).
  apply raises_only_raise. right; left; reflexivity.
Qed.

Lemma raises_only_read_data d data :
  raises_only decode_exn (NVSEntry.read_data d data).
Proof.
  destruct d; cbn [NVSEntry.read_data];
    (apply raises_only_bind; [apply raises_only_unpack | intros v; apply raises_only_ret]).
Qed.

Lemma raises_only_entry_init entryData st :
  raises_only decode_exn (NVSEntry.init entryData st).
Proof.
  unfold NVSEntry.init.
  apply raises_only_bind; [apply raises_only_unpack | intros hdr].
  apply raises_only_bind; [apply raises_only_datatype_of_int | intros d].
  apply raises_only_bind; [apply raises_only_decode_utf8 | intros k].
  destruct (negb _); [| apply raises_only_ret].
  apply raises_only_bind; [apply raises_only_read_data | intros [[sz v] dc]].
  apply raises_only_bind; [| intros u; apply raises_only_ret].
  destruct (_ =? 0); [| apply raises_only_ret].
  intros w x w' H. discriminate.
Qed.

Lemma raises_only_read_value pageData addr e :
  raises_only decode_exn (NVSPage.read_value pageData addr e).
Proof.
  unfold NVSPage.read_value.
  destruct (decide (NVSEntry.datatype e = NVSDataType.string)) as [Hs | Hs].
  - unfold NVSEntry.readStrValue. destruct (decide _) as [_ | Hn]; [| contradiction].
    apply raises_only_bind; [apply raises_only_unpack | intros raw].
    apply raises_only_bind; [apply raises_only_decode_utf8 | intros s].
    apply raises_only_ret.
  - destruct (decide (NVSEntry.datatype e = NVSDataType.blob_data)) as [Hb | Hb];
      [| apply raises_only_ret].
    unfold NVSEntry.readBlobValue. destruct (decide _) as [_ | Hn]; [| contradiction].
    apply raises_only_ret.
Qed.

Lemma raises_only_read_entry pageData n st :
  raises_only decode_exn (NVSPage.read_entry pageData n st).
Proof.
  unfold NVSPage.read_entry.
  apply raises_only_bind; [apply raises_only_entry_init | intros e].
  apply raises_only_read_value.
Qed.

Lemma raises_only_walk pageData states :
  (NVSPage.NUM_ENTRIES <= length states)%nat ->
  forall fuel n acc,
    raises_only decode_exn (NVSPage.walk fuel pageData states n acc).
Proof.
  intros Hlen. induction fuel as [| fuel IH]; intros n acc.
  - intros w x w' H. discriminate.
  - intros w x w'. rewrite walk_S.
    destruct (Nat.ltb_spec n NVSPage.NUM_ENTRIES) as [Hn | Hn]; [| discriminate].
    destruct (states !! n) as [st |] eqn:Hst.
    2:{ apply lookup_ge_None in Hst. lia. }
    destruct (negb _); [| apply IH].
    apply raises_only_bind; [apply raises_only_read_entry | intros e; apply IH].
Qed.

Lemma raises_only_page_init fuel pageData :
  raises_only decode_exn (NVSPage.init fuel pageData).
Proof.
  unfold NVSPage.init.
  apply raises_only_bind; [apply raises_only_unpack | intros hdr].
  destruct (NVSPage.is_active_or_full _); [| apply raises_only_ret].
  intros w x w' H.
  apply bind_raise_inv in H as [H | (bm & w1 & Hb & H)];
    [eapply raises_only_unpack, H |].
  apply unpack_ok in Hb as (-> & -> & Hlen).
  revert H. apply raises_only_bind; [| intros es; apply raises_only_ret].
  apply raises_only_walk. rewrite unpack_states_length, Hlen.
  unfold NVSPage.NUM_ENTRIES. lia.
Qed.

Lemma raises_only_scan fuel imageData : raises_only decode_exn (scan fuel imageData).
Proof.
  unfold scan. apply raises_only_bind; [| intros ps; apply raises_only_ret].
  generalize (range_step (length imageData) NVSPage.PAGE_SIZE) as addrs.
  generalize (@nil NVSPage.t) as acc.
  intros acc addrs. revert acc. induction addrs as [| a addrs IH]; intros acc.
  - apply raises_only_ret.
  - cbn [read_pages].
    apply raises_only_bind; [apply raises_only_page_init | intros p; apply IH].
Qed.

Lemma raises_only_write_pages pw pe pages :
  raises_only (fun x => x = KeyError \/ x = UnicodeEncodeError)
              (write_pages pw pe pages).
Proof.
  induction pages as [| p pages IH]; cbn [write_pages]; [apply raises_only_ret |].
  apply raises_only_bind; [| intros _; exact IH].
  induction (NVSPage.entries p) as [| e es IHe]; cbn [write_entries];
    [apply raises_only_ret |].
  apply raises_only_bind; [| intros _; exact IHe].
  destruct (selected pw pe e) eqn:Hsel; [| apply raises_only_ret].
  intros w x w' H. unfold bind in H. rewrite (str_selected pw pe e w Hsel) in H.
  destruct (namespaces w !! _).
  - unfold file_write in H. destruct (can_encode w _); [discriminate |].
    injection H as <- _. right. reflexivity.
  - injection H as <- _. left. reflexivity.
Qed.

(** X6: the exceptions of a run.  A run that raises while decoding raises
    [struct.error], [ValueError] or [UnicodeDecodeError] and leaves the
    output file as it was (the file is not opened).  The only other
    exceptions are raised while writing, after the header line: the
    [KeyError] of a namespace lookup and the [UnicodeEncodeError] of a line
    the locale's encoding cannot encode.  [IndexError] and [AttributeError]
    are never raised. *)
Theorem extract_exceptions fuel imageData pw pe w x w' :
  extractNVSEntries fuel imageData pw pe w = (Raise x, w') ->
  (decode_exn x /\ (scan fuel imageData w).1 = Raise x /\ csv w' = csv w) \/
  ((x = KeyError \/ x = UnicodeEncodeError) /\ exists pages lines,
     (scan fuel imageData w).1 = Ok pages /\ csv w' = csv_header :: lines).
Proof.
  destruct (extract_spec fuel imageData pw pe) as (r & ups & Hs & He).
  rewrite He, Hs. cbn [fst]. destruct r as [pages | e |]; intros H.
  - right. injection H as Hw <-. cbn [csv].
    split; [| eauto].
    pose proof (raises_only_write_pages pw pe pages
                  (MkWorld (namespaces (apply_updates ups w)) [] [] (locale w)) x)
      as Hk.
    unfold written in Hw. cbn [fst] in Hw.
    destruct (write_pages pw pe pages _) as [r' w2]. cbn [fst] in Hw. subst r'.
    eapply Hk. reflexivity.
  - left. injection H as <- <-. split; [| auto].
    eapply (raises_only_scan fuel imageData w). rewrite Hs. reflexivity.
  - discriminate.
Qed.

(** The same image is written under a UTF-8 locale and stops after the
    header under an ASCII one. *)
Example encode_error_under_ascii_locale :
  (extractNVSEntries 127 accent_page true false world0).1 = Ok tt /\
  length (csv (extractNVSEntries 127 accent_page true false world0).2) = 2%nat /\
  (extractNVSEntries 127 accent_page true false world_ascii).1
  = Raise UnicodeEncodeError /\
  csv (extractNVSEntries 127 accent_page true false world_ascii).2 = [csv_header].
Proof. repeat split; vm_compute; reflexivity. Qed.

(** ** The output flags *)

Lemma write_pages_unselected pages w :
  write_pages false false pages w = (Ok tt, w).
Proof.
  induction pages as [| p pages IH]; [reflexivity |].
  cbn [write_pages]. unfold bind.
  assert (He : write_entries false false (NVSPage.entries p) w = (Ok tt, w)).
  { induction (NVSPage.entries p) as [| e es IHe]; [reflexivity |].
    cbn [write_entries]. unfold bind, selected. cbn [andb orb]. exact IHe. }
  rewrite He. exact IH.
Qed.

(** X7: with both output flags off, a run whose decoding succeeds cannot
    fail: it writes the header line and nothing else. *)
Theorem extract_no_flags fuel imageData w pages w1 :
  scan fuel imageData w = (Ok pages, w1) ->
  extractNVSEntries fuel imageData false false w
  = (Ok tt, MkWorld (namespaces w1) (warnings w1) [csv_header] (locale w1)).
Proof.
  intros Hs. unfold extractNVSEntries. unfold bind at 1. rewrite Hs.
  unfold bind, file_open_w, file_write. rewrite can_encode_header.
  rewrite write_pages_unselected. reflexivity.
Qed.

(** ** A trailing partial page *)

Lemma read_slices_app fuel l1 l2 :
  forall acc w,
    read_slices fuel (l1 ++ l2) acc w
    = bind (read_slices fuel l1 acc) (fun ps => read_slices fuel l2 ps) w.
Proof.
  induction l1 as [| d l1 IH]; intros acc w; [reflexivity |].
  cbn [app read_slices]. unfold bind.
  destruct (NVSPage.init fuel d w) as [[p | x |] w1]; try reflexivity.
  rewrite IH. reflexivity.
Qed.

Lemma page_init_short fuel pageData w :
  (length pageData < 32)%nat ->
  NVSPage.init fuel pageData w = (Raise struct_error, w).
Proof.
  intros Hlen. unfold NVSPage.init, bind, unpack.
  assert (Hl : length (slice 0 32 pageData) = length pageData)
    by (unfold slice; rewrite length_take, length_drop; lia).
  rewrite Hl. destruct (Nat.eqb_spec (length pageData) 32); [lia | reflexivity].
Qed.

(** X8: an image that ends with a partial page of fewer than 32 bytes is
    not truncated to its whole pages: once the whole pages before it have
    been decoded, the page decoder raises [struct.error] on the remainder
    and the run ends there, with the output file untouched. *)
Theorem partial_page_raises fuel k pre tail pw pe w pages w1 :
  length pre = (k * NVSPage.PAGE_SIZE)%nat ->
  (0 < length tail < 32)%nat ->
  scan fuel pre w = (Ok pages, w1) ->
  extractNVSEntries fuel (pre ++ tail) pw pe w = (Raise struct_error, w1) /\
  csv w1 = csv w.
Proof.
  intros Hpre Htail Hs. split.
  - unfold extractNVSEntries, scan in *. unfold bind at 1 2.
    rewrite read_pages_slices. fold (page_slices (pre ++ tail)).
    rewrite (page_slices_app k pre tail Hpre), (windows_short tail)
      by (unfold NVSPage.PAGE_SIZE; lia).
    rewrite read_slices_app. unfold bind at 1.
    unfold bind in Hs. rewrite read_pages_slices in Hs. fold (page_slices pre) in Hs.
    destruct (read_slices fuel (page_slices pre) [] w) as [[ps | x |] w2];
      try discriminate.
    injection Hs as _ <-. cbn [read_slices]. unfold bind.
    rewrite page_init_short by lia. reflexivity.
  - destruct (write_only_frame _ w (write_only_scan fuel pre)) as [_ Hc].
    rewrite Hs in Hc. exact Hc.
Qed.

(** ** The sort on pages already in order *)

(** X9: an image whose kept pages already come in ascending sequence order
    is written in physical order: sorting leaves such a list as it is. *)
Theorem sort_pages_sorted_id pages :
  StronglySorted seq_le pages -> sort_pages pages = pages.
Proof.
  induction 1 as [| p l Hs IH Hp]; [reflexivity |].
  cbn [sort_pages foldr]. fold (sort_pages l). rewrite IH.
  destruct l as [| q l]; [reflexivity |].
  cbn [insert_page]. apply Forall_cons in Hp as [Hpq _]. unfold seq_le in Hpq.
  apply Z.leb_le in Hpq. rewrite Hpq. reflexivity.
Qed.

(** ** The hex rendering of a blob *)

Lemma hex_digit_code n :
  0 <= n < 16 ->
  nat_of_ascii (hex_digit n) = Z.to_nat (if n <? 10 then 48 + n else 87 + n).
Proof.
  intros Hn. unfold hex_digit.
  destruct (n <? 10); apply nat_ascii_embedding; lia.
Qed.

Lemma hex_digit_inj n m :
  0 <= n < 16 -> 0 <= m < 16 -> hex_digit n = hex_digit m -> n = m.
Proof.
  intros Hn Hm H. apply (f_equal nat_of_ascii) in H.
  rewrite !hex_digit_code in H by assumption.
  destruct (Z.ltb_spec n 10), (Z.ltb_spec m 10); lia.
Qed.

Lemma byte_val_inj b b' : byte_val b = byte_val b' -> b = b'.
Proof.
  unfold byte_val. intros H. apply N2Z.inj in H.
  pose proof (Byte.of_to_N b) as Hb. rewrite H, Byte.of_to_N in Hb.
  congruence.
Qed.

Lemma hex_inj a : forall b, hex a = hex b -> a = b.
Proof.
  induction a as [| x a IH]; intros [| y b] H; try discriminate; [reflexivity |].
  cbn [hex] in H. injection H as Hhi Hlo Hrest.
  pose proof (byte_val_bounds x) as Hx. pose proof (byte_val_bounds y) as Hy.
  apply hex_digit_inj in Hhi;
    [| split; [apply Z.div_pos | apply Z.div_lt_upper_bound]; lia ..].
  apply hex_digit_inj in Hlo; [| apply Z.mod_pos_bound; lia ..].
  f_equal; [| apply IH, Hrest].
  apply byte_val_inj.
  rewrite (Z.div_mod (byte_val x) 16), (Z.div_mod (byte_val y) 16) by lia.
  congruence.
Qed.

Lemma hex_length bs : String.length (hex bs) = (2 * length bs)%nat.
Proof. induction bs as [| b bs IH]; [reflexivity |]. cbn [hex String.length length]. lia. Qed.

Lemma string_app_inv_l (p a b : pystr) : p +:+ a = p +:+ b -> a = b.
Proof. induction p as [| c p IH]; [auto |]. cbn. intros [= H]. auto. Qed.

Lemma string_app_inv_r (a b s : pystr) :
  String.length a = String.length b -> a +:+ s = b +:+ s -> a = b.
Proof.
  revert b. induction a as [| c a IH]; intros [| d b] Hl H; try discriminate;
    [reflexivity |].
  cbn in H. injection H as -> H. f_equal. apply IH; [| exact H].
  cbn in Hl. lia.
Qed.

Lemma string_length_app (a b : pystr) :
  String.length (a +:+ b) = (String.length a + String.length b)%nat.
Proof.
  induction a as [| c a IH]; [reflexivity |].
  change (String c a +:+ b) with (String c (a +:+ b)).
  cbn [String.length Nat.add]. f_equal. exact IH.
Qed.

(** X10: the rendering of a blob is lossless.  [readBlobValue] never fails
    on a blob-data entry; its value is [b'] followed by two hex digits per
    payload byte and a closing quote, and two equal renderings come from the
    same payload bytes. *)
Theorem blob_value_lossless e d1 d2 w :
  NVSEntry.datatype e = NVSDataType.blob_data ->
  let p1 := slice 0 (Z.to_nat (NVSEntry.size e)) d1 in
  let p2 := slice 0 (Z.to_nat (NVSEntry.size e)) d2 in
  NVSEntry.readBlobValue e d1 w
  = (Ok (NVSEntry.set_value e (VStr ("b'" +:+ hex p1 +:+ "'"))), w) /\
  String.length ("b'" +:+ hex p1 +:+ "'") = (2 * length p1 + 3)%nat /\
  ((NVSEntry.readBlobValue e d1 w).1 = (NVSEntry.readBlobValue e d2 w).1 ->
   p1 = p2).
Proof.
  intros Hd. cbv zeta. unfold NVSEntry.readBlobValue.
  destruct (decide _) as [_ | Hn]; [| contradiction].
  split; [reflexivity |]. split.
  - rewrite !string_length_app, hex_length. cbn [String.length]. lia.
  - unfold ret. cbn [fst]. intros [= H].
    apply hex_inj. apply (string_app_inv_r _ _ "'"); [| exact H].
    apply (f_equal String.length) in H.
    rewrite !string_length_app in H. lia.
Qed.

(** ** Keys *)

Lemma is_x00_true b : is_x00 b = true -> b = x00.
Proof.
  unfold is_x00. intros H. apply Z.eqb_eq in H. apply byte_val_inj.
  rewrite H. reflexivity.
Qed.

Lemma rstrip0_padding bs : exists k, bs = rstrip0 bs ++ replicate k x00.
Proof.
  induction bs as [| b bs [k IH]]; [exists 0%nat; reflexivity |].
  cbn [rstrip0]. destruct (rstrip0 bs) as [| c r] eqn:Hr.
  - destruct (is_x00 b) eqn:Hb.
    + apply is_x00_true in Hb. subst b. exists (S k). rewrite IH at 1. reflexivity.
    + exists k. rewrite IH at 1. reflexivity.
  - exists k. rewrite IH at 1. reflexivity.
Qed.

Lemma rstrip0_last bs : last (rstrip0 bs) <> Some x00.
Proof.
  induction bs as [| b bs IH]; [discriminate |].
  cbn [rstrip0]. destruct (rstrip0 bs) as [| c r] eqn:Hr.
  - destruct (is_x00 b) eqn:Hb; [discriminate |].
    cbn. intros [= ->]. discriminate.
  - exact IH.
Qed.

(** X11: the key of a decoded entry is the 16 key bytes of the slot without
    their trailing NUL padding: the key bytes are the key followed by NULs
    only, the key does not end with a NUL (a NUL inside the key is kept),
    and the key is well-formed UTF-8. *)
Theorem entry_key_padding entryData st w e w' :
  NVSEntry.init entryData st w = (Ok e, w') ->
  let raw := slice 8 24 (slice 0 24 entryData) in
  let k := list_byte_of_string (NVSEntry.key e) in
  (exists n, raw = k ++ replicate n x00) /\
  last k <> Some x00 /\
  utf8_valid k = true.
Proof.
  intros H. apply entry_init_inv in H. cbv zeta in H |- *.
  destruct H as (_ & _ & Hv & H).
  assert (Hk : NVSEntry.key e
               = string_of_list_byte (rstrip0 (slice 8 24 (slice 0 24 entryData)))).
  { destruct (negb _).
    - destruct H as (sz & v & dc & _ & -> & _). reflexivity.
    - destruct H as [-> _]. reflexivity. }
  rewrite Hk, list_byte_of_string_of_list_byte.
  split; [apply rstrip0_padding |]. split; [apply rstrip0_last | exact Hv].
Qed.

(** ** When a slot decodes *)

Lemma datatype_of_int_recognized tag w :
  recognized tag = true -> exists d, NVSDataType.of_int tag w = (Ok d, w).
Proof.
  unfold recognized, all_datatypes. cbn [existsb NVSDataType.to_int]. intros H.
  unfold NVSDataType.of_int.
  repeat match goal with
         | |- context [tag =? ?b] =>
             destruct (Z.eqb_spec tag b); [eexists; reflexivity |]
         end.
  exfalso.
  repeat (apply orb_prop in H as [H | H]; [apply Z.eqb_eq in H; congruence |]).
  discriminate.
Qed.

Lemma read_data_total d (data : bytes) w :
  length data = 8%nat -> exists r, NVSEntry.read_data d data w = (Ok r, w).
Proof.
  intros Hlen.
  assert (Hs : forall k, (k <= 8)%nat -> length (slice 0 k data) = k)
    by (intros k Hk; unfold slice; rewrite length_take, length_drop; lia).
  destruct d; cbn [NVSEntry.read_data]; unfold bind, unpack;
    rewrite Hs by lia; rewrite Nat.eqb_refl; eexists; reflexivity.
Qed.

(** X12: a full 32-byte slot decodes exactly when its type tag is one of the
    eleven tags and its key bytes, without their NUL padding, are
    well-formed UTF-8; nothing else in the slot can make [NVSEntry.init]
    fail. *)
Theorem entry_init_succeeds_iff entryData st w :
  length entryData = 32%nat ->
  (exists e w', NVSEntry.init entryData st w = (Ok e, w')) <->
  recognized (tag_byte entryData) = true /\
  utf8_valid (rstrip0 (slice 8 24 (slice 0 24 entryData))) = true.
Proof.
  intros Hlen. split.
  - intros (e & w' & H). apply entry_init_inv in H. cbv zeta in H.
    destruct H as (_ & Htag & Hv & _). split; [| exact Hv].
    unfold tag_byte. rewrite <- Htag. unfold recognized, all_datatypes.
    destruct (NVSEntry.datatype e); reflexivity.
  - intros [Htag Hv]. unfold NVSEntry.init, bind, unpack.
    assert (Hl : length (slice 0 24 entryData) = 24%nat)
      by (unfold slice; rewrite length_take, length_drop; lia).
    assert (Hd : length (slice 24 32 entryData) = 8%nat)
      by (unfold slice; rewrite length_take, length_drop; lia).
    rewrite Hl. cbn [Nat.eqb ret].
    destruct (datatype_of_int_recognized _ w Htag) as [d Hof].
    unfold tag_byte in Hof. rewrite Hof.
    unfold decode_utf8. rewrite Hv. cbn [ret].
    destruct (negb _); [| eauto].
    destruct (read_data_total d _ w Hd) as [[[sz v] dc] Hr]. rewrite Hr.
    destruct (_ =? 0); unfold ns_update; eauto.
Qed.

(** ** How long the slot walk runs *)

Lemma walk_bounded pageData states :
  forall fuel n acc w,
    (NVSPage.walk fuel pageData states n acc w).1 <> OutOfFuel ->
    NVSPage.walk (S (NVSPage.NUM_ENTRIES - n)) pageData states n acc w
    = NVSPage.walk fuel pageData states n acc w.
Proof.
  induction fuel as [| fuel IH]; intros n acc w Hne;
    [exfalso; apply Hne; reflexivity |].
  rewrite !walk_S in *.
  destruct (Nat.ltb_spec n NVSPage.NUM_ENTRIES) as [Hn | Hn]; [| reflexivity].
  destruct (states !! n) as [st |] eqn:Hst; [| reflexivity].
  destruct (Z.eqb_spec st (NVSEntryState.to_int NVSEntryState.Empty)) as [Heq | Hneq];
    cbn [negb] in *.
  - rewrite <- (IH _ _ _ Hne).
    replace (NVSPage.NUM_ENTRIES - n)%nat with (S (NVSPage.NUM_ENTRIES - (n + 1)))
      by lia.
    reflexivity.
  - unfold bind in *.
    destruct (NVSPage.read_entry pageData n st w) as [[e | x |] w1] eqn:He;
      try reflexivity.
    destruct (Nat.eq_dec (Z.to_nat (NVSEntry.span e)) 0%nat) as [Hz | Hnz].
    + exfalso. apply Hne. rewrite Hz, Nat.add_0_r.
      apply (walk_stuck pageData states n st e w Hn Hst Hneq
               ltac:(rewrite He; reflexivity) Hz).
    + rewrite <- (IH _ _ _ Hne).
      apply walk_fuel_mono; [lia |].
      rewrite (IH _ _ _ Hne). exact Hne.
Qed.

(** X13: a page decoder that ends (with a page or an exception) has
    evaluated its loop test at most 127 times: whatever result some amount
    of fuel gives, 127 gives the same. *)
Theorem page_init_bounded fuel pageData w :
  (NVSPage.init fuel pageData w).1 <> OutOfFuel ->
  NVSPage.init (S NVSPage.NUM_ENTRIES) pageData w = NVSPage.init fuel pageData w.
Proof.
  unfold NVSPage.init, bind.
  destruct (unpack 32 (slice 0 32 pageData) w) as [[hdr | x |] w1]; try reflexivity.
  destruct (NVSPage.is_active_or_full _); [| reflexivity].
  destruct (unpack 32 (slice 32 64 pageData) w1) as [[bm | x |] w2]; try reflexivity.
  intros Hne.
  pose proof (walk_bounded pageData (NVSPage.unpack_states bm) fuel 0 [] w2) as Hb.
  rewrite Nat.sub_0_r in Hb. rewrite Hb; [reflexivity |].
  destruct (NVSPage.walk fuel _ _ _ _ _) as [[es | x |] w3]; cbn [fst] in *;
    congruence.
Qed.

(** ** The windows of the image *)

Lemma page_slices_nil : page_slices [] = [].
Proof. reflexivity. Qed.

Lemma page_slices_spec n :
  forall imageData : bytes,
    (length imageData <= n * NVSPage.PAGE_SIZE)%nat ->
    concat (page_slices imageData) = imageData /\
    Forall (fun p : bytes => (0 < length p <= NVSPage.PAGE_SIZE)%nat)
           (page_slices imageData).
Proof.
  pose proof PAGE_SIZE_pos as Hpos.
  induction n as [| n IH]; intros img Hlen.
  - destruct img; [split; [reflexivity | constructor] | cbn [length] in Hlen; lia].
  - destruct (le_lt_dec (length img) NVSPage.PAGE_SIZE) as [Hle | Hgt].
    + destruct img as [| b img]; [split; [reflexivity | constructor] |].
      rewrite windows_short by (cbn [length] in *; lia).
      split; [cbn [concat]; apply app_nil_r |].
      constructor; [cbn [length] in *; lia | constructor].
    + replace (page_slices img)
        with (page_slices (take NVSPage.PAGE_SIZE img ++ drop NVSPage.PAGE_SIZE img))
        by (rewrite take_drop; reflexivity).
      assert (Ht : length (take NVSPage.PAGE_SIZE img) = NVSPage.PAGE_SIZE)
        by (rewrite length_take; lia).
      rewrite (page_slices_app 1 (take NVSPage.PAGE_SIZE img)
                 (drop NVSPage.PAGE_SIZE img) ltac:(rewrite Ht; lia)),
        (page_slices_single _ Ht).
      destruct (IH (drop NVSPage.PAGE_SIZE img)) as [Hc Hf];
        [rewrite length_drop; lia |].
      split.
      * cbn [app concat]. rewrite Hc. apply take_drop.
      * constructor; [lia | exact Hf].
Qed.

(** X14: the windows the scanner decodes are the image cut every 4096
    bytes: each is non-empty and at most a page long, and put end to end in
    the order they are visited they are the image, every byte once. *)
Theorem page_slices_partition (imageData : bytes) :
  concat (map (fun a => slice a (a + NVSPage.PAGE_SIZE) imageData)
              (range_step (length imageData) NVSPage.PAGE_SIZE)) = imageData /\
  Forall (fun p : bytes => (0 < length p <= NVSPage.PAGE_SIZE)%nat)
         (map (fun a => slice a (a + NVSPage.PAGE_SIZE) imageData)
              (range_step (length imageData) NVSPage.PAGE_SIZE)).
Proof.
  apply (page_slices_spec (length imageData)).
  pose proof PAGE_SIZE_pos. nia.
Qed.

(** ** Erased entries *)

(** X15: the entry decoder does not look at the state of a non-empty slot:
    an Erased slot (or one in the invalid state 1) is decoded exactly as a
    Written one, up to the [state] attribute, with the same effect on the
    namespace table. *)
Theorem entry_init_state_independent entryData st1 st2 w :
  st1 <> NVSEntryState.to_int NVSEntryState.Empty ->
  st2 <> NVSEntryState.to_int NVSEntryState.Empty ->
  NVSEntry.init entryData st1 w
  = on_ok (fun e => set_state e st1) (NVSEntry.init entryData st2 w).
Proof.
  intros H1 H2. apply Z.eqb_neq in H1, H2.
  unfold NVSEntry.init, bind, on_ok. rewrite H1, H2. cbn [negb].
  destruct (unpack 24 _ w) as [[hdr | x |] w1]; try reflexivity.
  destruct (NVSDataType.of_int _ w1) as [[d | x |] w2]; try reflexivity.
  destruct (decode_utf8 _ w2) as [[k | x |] w3]; try reflexivity.
  destruct (NVSEntry.read_data d _ w3) as [[[[sz v] dc] | x |] w4]; try reflexivity.
  destruct (_ =? 0); reflexivity.
Qed.

(** ** Instances *)

Lemma entry_init_state_independent_witness :
  (0 <> NVSEntryState.to_int NVSEntryState.Empty /\
   2 <> NVSEntryState.to_int NVSEntryState.Empty) /\
  NVSEntry.init wifi_slot 0 world0
  = on_ok (fun e => set_state e 0) (NVSEntry.init wifi_slot 2 world0).
Proof.
  split; [split; discriminate |].
  apply entry_init_state_independent; discriminate.
Defined.

Lemma entry_init_ranges_witness :
  NVSEntry.init rssi_slot 2 world0 = (Ok rssi_entry, world0) /\
  0 <= NVSEntry.ns rssi_entry < 256 /\
  0 <= NVSEntry.span rssi_entry < 256 /\
  NVSEntry.state rssi_entry = 2.
Proof.
  split; [vm_compute; reflexivity |].
  pose proof (entry_init_ranges rssi_slot 2 world0 rssi_entry world0
                ltac:(vm_compute; reflexivity)) as (Hns & Hsp & _ & _ & Hst & _).
  auto.
Defined.

Lemma namespace_last_definition_wins_witness :
  let r := scan 127 rebind_page world0 in
  r = (Ok [decoded_rebind], r.2) /\
  render (namespaces r.2) rssi_entry = Ok "Written,int32_t,4,other,rssi,-70".
Proof.
  cbv zeta.
  assert (Hs : scan 127 rebind_page world0
               = (Ok [decoded_rebind], (scan 127 rebind_page world0).2))
    by (vm_compute; reflexivity).
  split; [exact Hs |].
  destruct (namespace_last_definition_wins 127 rebind_page world0 _ _ Hs)
    as (all & Hall & _ & _ & _ & Hlast).
  rewrite (page_slices_single rebind_page ltac:(vm_compute; reflexivity)) in Hall.
  inversion Hall as [| ? p ? ps Hp Hnil]; subst. inversion Hnil; subst.
  pose proof (decodes_to_fun _ _ _ decoded_rebind world0 Hp
                ltac:(vm_compute; reflexivity)) as ->.
  rewrite (Hlast [wifi_entry; rssi_entry] other_entry [] 1 true false rssi_entry);
    first [ vm_compute; reflexivity
          | intros x Hx; apply elem_of_nil in Hx; destruct Hx ].
Defined.

Lemma page_entries_invariant_witness :
  let r := NVSPage.init 127 page_seq5 world0 in
  (exists p, r = (Ok p, r.2) /\
     (length (NVSPage.entries p) <= 126)%nat /\
     Forall (fun e => 1 <= NVSEntry.span e < 256 /\ 0 <= NVSEntry.state e <= 2)
            (NVSPage.entries p)).
Proof.
  cbv zeta. eexists. split; [vm_compute; reflexivity |].
  match goal with
  | |- (length (NVSPage.entries ?p) <= _)%nat /\ _ =>
      pose proof (page_entries_invariant 127 page_seq5 world0 p
                    (NVSPage.init 127 page_seq5 world0).2
                    ltac:(vm_compute; reflexivity)) as (Hl & Hf & _)
  end.
  split; assumption.
Defined.

Lemma extract_exceptions_witness :
  let r := extractNVSEntries 127 orphan_page true false world0 in
  r = (Raise KeyError, r.2) /\
  ((decode_exn KeyError /\ (scan 127 orphan_page world0).1 = Raise KeyError /\
    csv r.2 = csv world0) \/
   ((KeyError = KeyError \/ KeyError = UnicodeEncodeError) /\ exists pages lines,
      (scan 127 orphan_page world0).1 = Ok pages /\ csv r.2 = csv_header :: lines)).
Proof.
  cbv zeta. split; [vm_compute; reflexivity |].
  apply (extract_exceptions 127 orphan_page true false world0).
  vm_compute; reflexivity.
Defined.

Lemma extract_no_flags_witness :
  let r := scan 127 two_pages world0 in
  (exists pages, r = (Ok pages, r.2)) /\
  extractNVSEntries 127 two_pages false false world0
  = (Ok tt, MkWorld (namespaces r.2) (warnings r.2) [csv_header] (locale r.2)).
Proof.
  cbv zeta. split; [eexists; vm_compute; reflexivity |].
  eapply extract_no_flags. vm_compute; reflexivity.
Defined.

Lemma partial_page_raises_witness :
  let r := scan 127 page_seq5 world0 in
  (length page_seq5 = (1 * NVSPage.PAGE_SIZE)%nat /\
   (0 < length [B 1; B 2; B 3] < 32)%nat /\
   exists pages, r = (Ok pages, r.2)) /\
  extractNVSEntries 127 (page_seq5 ++ [B 1; B 2; B 3]) true false world0
  = (Raise struct_error, r.2) /\
  csv r.2 = csv world0.
Proof.
  cbv zeta. split.
  - split; [vm_compute; reflexivity |]. split; [cbn; lia |].
    eexists; vm_compute; reflexivity.
  - eapply (partial_page_raises 127 1 page_seq5 [B 1; B 2; B 3] true false world0).
    + vm_compute; reflexivity.
    + cbn; lia.
    + vm_compute; reflexivity.
Defined.

Lemma sort_pages_sorted_id_witness :
  let pages := [NVSPage.Make 0xfffffffc 2 0xfe 0 [];
                NVSPage.Make 0xfffffffe 5 0xfe 0 [];
                NVSPage.Make 0xfffffffe 5 0xfe 1 []] in
  StronglySorted seq_le pages /\ sort_pages pages = pages.
Proof.
  cbv zeta.
  assert (Hs : StronglySorted seq_le
                 [NVSPage.Make 0xfffffffc 2 0xfe 0 [];
                  NVSPage.Make 0xfffffffe 5 0xfe 0 [];
                  NVSPage.Make 0xfffffffe 5 0xfe 1 []])
    by (repeat constructor; unfold seq_le; cbn; lia).
  split; [exact Hs | exact (sort_pages_sorted_id _ Hs)].
Defined.

Lemma blob_value_lossless_witness :
  NVSEntry.datatype blob_entry = NVSDataType.blob_data /\
  NVSEntry.readBlobValue blob_entry [B 0xde; B 0xad; B 0xbe; B 0xef; B 0xff] world0
  = (Ok (NVSEntry.set_value blob_entry (VStr "b'deadbeef'")), world0).
Proof.
  split; [reflexivity |].
  exact (proj1 (blob_value_lossless blob_entry
                  [B 0xde; B 0xad; B 0xbe; B 0xef; B 0xff]
                  [B 0xde; B 0xad; B 0xbe; B 0xef; B 0xff] world0 eq_refl)).
Defined.

Lemma entry_key_padding_witness :
  NVSEntry.init wifi_slot 2 world0
  = (Ok wifi_entry, (NVSEntry.init wifi_slot 2 world0).2) /\
  let raw := slice 8 24 (slice 0 24 wifi_slot) in
  let k := list_byte_of_string (NVSEntry.key wifi_entry) in
  (exists n, raw = k ++ replicate n x00) /\
  last k <> Some x00 /\
  utf8_valid k = true.
Proof.
  split; [vm_compute; reflexivity |].
  apply (entry_key_padding wifi_slot 2 world0 wifi_entry
           (NVSEntry.init wifi_slot 2 world0).2).
  vm_compute; reflexivity.
Defined.

Lemma entry_init_succeeds_iff_witness :
  length wifi_slot = 32%nat /\
  ((exists e w', NVSEntry.init wifi_slot 2 world0 = (Ok e, w')) <->
   recognized (tag_byte wifi_slot) = true /\
   utf8_valid (rstrip0 (slice 8 24 (slice 0 24 wifi_slot))) = true).
Proof.
  split; [vm_compute; reflexivity |].
  apply entry_init_succeeds_iff. vm_compute; reflexivity.
Defined.

Lemma page_init_bounded_witness :
  (NVSPage.init 500 page_seq5 world0).1 <> OutOfFuel /\
  NVSPage.init (S NVSPage.NUM_ENTRIES) page_seq5 world0
  = NVSPage.init 500 page_seq5 world0.
Proof.
  assert (H : (NVSPage.init 500 page_seq5 world0).1 <> OutOfFuel)
    by (vm_compute; discriminate).
  split; [exact H | exact (page_init_bounded 500 page_seq5 world0 H)].
Defined.
